(** * Verilog analyzer: module extraction, document splicing and the
      remote tool front end

    A shallow embedding of [verilog_analyzer.py] and
    [verilog_mcp_server.py].

    Modelling conventions.
    - A Python [str] is a [string]: a sequence of characters with codes
      below 256.  The regular-expression classes [\s], [\w] and [\d] are
      the Unicode classes of Python's [re] restricted to that range.
    - [str.find] returns an integer, [-1] when the text is absent, and
      slices take integer bounds, as in the source.
    - Calls to [logger] and [print] are not represented: they change
      neither a returned value nor a file. *)

From Stdlib Require Import List ZArith Lia Bool Arith Ascii String.
From Stdlib Require Import DecimalString.
Import ListNotations.
Open Scope string_scope.

(** ** Python strings *)

Module Py.

Definition nl : string := String (ascii_of_nat 10) EmptyString.

(** [s[:n]] and [s[n:]] for a natural number [n]. *)
Fixpoint take (n : nat) (s : string) : string :=
  match n, s with
  | S n', String c s' => String c (take n' s')
  | _, _ => EmptyString
  end.

Fixpoint drop (n : nat) (s : string) : string :=
  match n, s with
  | S n', String _ s' => drop n' s'
  | _, _ => s
  end.

(** Normalisation of a slice bound: a negative bound counts from the
    end, and every bound is clamped to the length. *)
Definition clamp (k : Z) (len : nat) : nat :=
  if (k <? 0)%Z
  then Z.to_nat (Z.max 0 (Z.of_nat len + k))
  else Nat.min (Z.to_nat k) len.

(** [s[:k]] *)
Definition slice_to (s : string) (k : Z) : string :=
  take (clamp k (length s)) s.

(** [s[k:]] *)
Definition slice_from (s : string) (k : Z) : string :=
  drop (clamp k (length s)) s.

(** [s.find(sub)]: the lowest index at which [sub] starts, or [-1]. *)
Fixpoint find_from (sub s : string) (i : Z) : Z :=
  if prefix sub s then i
  else match s with
       | EmptyString => (-1)%Z
       | String _ s' => find_from sub s' (i + 1)%Z
       end.

Definition find (s sub : string) : Z := find_from sub s 0%Z.

(** [sep.join(xs)] *)
Fixpoint join (sep : string) (xs : list string) : string :=
  match xs with
  | [] => ""
  | [x] => x
  | x :: rest => x ++ sep ++ join sep rest
  end.

(** [str(n)] for a non-negative integer. *)
Definition str_of_nat (n : nat) : string :=
  NilEmpty.string_of_uint (Nat.to_uint n).

(** [s.startswith(p)], [s.endswith(p)], [sub in s] *)
Definition startswith (s p : string) : bool := prefix p s.

Definition endswith (s p : string) : bool :=
  Nat.leb (length p) (length s) && (drop (length s - length p) s =? p).

Definition contains (s sub : string) : bool :=
  negb (find s sub =? -1)%Z.

End Py.

(** ** The document assembler's splice *)

Definition begin_document : string := "\begin{document}".
Definition end_document : string := "\end{document}".

(** [VerilogAnalyzer._replace_entire_document_content] *)
Definition _replace_entire_document_content
    (template_content new_content : string) : string :=
  let begin_doc := Py.find template_content begin_document in
  let end_doc := Py.find template_content end_document in
  if ((begin_doc =? -1) || (end_doc =? -1))%Z then template_content
  else
    let before_doc :=
      Py.slice_to template_content
        (begin_doc + Z.of_nat (length begin_document))%Z in
    let after_doc := Py.slice_from template_content end_doc in
    before_doc ++ Py.nl ++ Py.nl ++ new_content ++ Py.nl ++ Py.nl ++ after_doc.

(** ** Regular expressions, as Python's [re] runs them

    The four patterns of the analyzer use literals, greedy repetition of
    a character class, alternation, optional non-capturing groups and
    capturing groups.  Matching is backtracking with priorities: a
    greedy repetition tries the longest run first, an alternation its
    left branch first, an optional group its presence first. *)

Module Re.

Definition charset : Type := ascii -> bool.

Definition between (lo hi : nat) (c : ascii) : bool :=
  Nat.leb lo (nat_of_ascii c) && Nat.leb (nat_of_ascii c) hi.

Definition is_char (d : ascii) : charset := fun c => Ascii.eqb c d.

Definition union (a b : charset) : charset := fun c => a c || b c.

Definition complement (a : charset) : charset := fun c => negb (a c).

(** [\s]: tab to carriage return, the four information separators and
    the space, the next-line control and the no-break space. *)
Definition is_space : charset :=
  union (between 9 13)
    (union (between 28 32) (union (between 133 133) (between 160 160))).

(** [\d] *)
Definition is_digit : charset := between 48 57.

(** [\w]: the alphanumeric characters and the underscore. *)
Definition is_word : charset :=
  fun c =>
    existsb (fun r => between (fst r) (snd r) c)
      [(48, 57); (65, 90); (95, 95); (97, 122); (170, 170); (178, 179);
       (181, 181); (185, 186); (188, 190); (192, 214); (216, 246);
       (248, 255)].

Inductive regex : Type :=
| Lit (text : string)
| Plus (cs : charset)
| Star (cs : charset)
| Seq (r1 r2 : regex)
| Alt (r1 r2 : regex)
| Opt (r : regex)
| Group (n : nat) (r : regex).

(** The text captured by each group that took part in the match. *)
Definition groups : Type := list (nat * string).

Section Backtracking.

Context {R : Type}.

(** Greedy [cs*] followed by the continuation [k]. *)
Fixpoint star (cs : charset) (s : string) (k : string -> option R)
  : option R :=
  match s with
  | String c s' =>
      if cs c
      then match star cs s' k with
           | Some r => Some r
           | None => k s
           end
      else k s
  | EmptyString => k s
  end.

Fixpoint run (r : regex) (s : string) (g : groups)
    (k : string -> groups -> option R) : option R :=
  match r with
  | Lit text =>
      if prefix text s then k (Py.drop (length text) s) g else None
  | Plus cs =>
      match s with
      | String c s' => if cs c then star cs s' (fun t => k t g) else None
      | EmptyString => None
      end
  | Star cs => star cs s (fun t => k t g)
  | Seq r1 r2 => run r1 s g (fun t g' => run r2 t g' k)
  | Alt r1 r2 =>
      match run r1 s g k with
      | Some x => Some x
      | None => run r2 s g k
      end
  | Opt r1 =>
      match run r1 s g k with
      | Some x => Some x
      | None => k s g
      end
  | Group n r1 =>
      run r1 s g
        (fun t g' => k t ((n, Py.take (length s - length t) s) :: g'))
  end.

End Backtracking.

(** A successful match: its length and its groups. *)
Record Match : Type := { span : nat; captured : groups }.

(** [m.group(n)] *)
Fixpoint lookup (n : nat) (g : groups) : option string :=
  match g with
  | [] => None
  | (m, text) :: rest => if Nat.eqb m n then Some text else lookup n rest
  end.

Definition group (m : Match) (n : nat) : option string :=
  lookup n (captured m).

(** In the result of [findall] a group that took no part is [""]. *)
Definition group_text (m : Match) (n : nat) : string :=
  match group m n with Some text => text | None => "" end.

(** The pattern matched at the start of [s]. *)
Definition match_here (r : regex) (s : string) : option Match :=
  run r s []
    (fun t g => Some {| span := length s - length t; captured := g |}).

(** [re.search(r, s)]: the match at the leftmost position that has
    one. *)
Fixpoint search (r : regex) (s : string) : option Match :=
  match match_here r s with
  | Some m => Some m
  | None =>
      match s with
      | EmptyString => None
      | String _ s' => search r s'
      end
  end.

(** The non-overlapping matches from left to right; [skip] characters
    belong to the match found last.  The patterns of the analyzer
    begin with a keyword, so none of them matches the empty text. *)
Fixpoint scan (r : regex) (s : string) (skip : nat) : list Match :=
  match s with
  | EmptyString => []
  | String _ s' =>
      match skip with
      | S n => scan r s' n
      | O =>
          match match_here r s with
          | Some m => m :: scan r s' (span m - 1)
          | None => scan r s' 0
          end
      end
  end.

(** [re.findall(r, s)] for a pattern with one group. *)
Definition findall1 (r : regex) (s : string) : list string :=
  map (fun m => group_text m 1) (scan r s 0).

(** [re.findall(r, s)] for a pattern with two groups. *)
Definition findall2 (r : regex) (s : string) : list (string * string) :=
  map (fun m => (group_text m 1, group_text m 2)) (scan r s 0).

End Re.

(** ** The port extractor *)

(** [(?:wire\s+|reg\s+)?] *)
Definition storage_class : Re.regex :=
  Re.Opt (Re.Alt (Re.Seq (Re.Lit "wire") (Re.Plus Re.is_space))
                 (Re.Seq (Re.Lit "reg") (Re.Plus Re.is_space))).

(** [(?:\[[\d:\s]+\]\s+)?] *)
Definition bit_range : Re.regex :=
  Re.Opt
    (Re.Seq (Re.Lit "[")
       (Re.Seq
          (Re.Plus (Re.union Re.is_digit
                      (Re.union (Re.is_char ":") Re.is_space)))
          (Re.Seq (Re.Lit "]") (Re.Plus Re.is_space)))).

(** [keyword\s+(?:wire\s+|reg\s+)?(?:\[[\d:\s]+\]\s+)?(\w+)] *)
Definition port_pattern (keyword : string) : Re.regex :=
  Re.Seq (Re.Lit keyword)
    (Re.Seq (Re.Plus Re.is_space)
       (Re.Seq storage_class
          (Re.Seq bit_range (Re.Group 1 (Re.Plus Re.is_word))))).

(** [parameter\s+(\w+)\s*=\s*([^,\)]+)] *)
Definition parameter_pattern : Re.regex :=
  Re.Seq (Re.Lit "parameter")
    (Re.Seq (Re.Plus Re.is_space)
       (Re.Seq (Re.Group 1 (Re.Plus Re.is_word))
          (Re.Seq (Re.Star Re.is_space)
             (Re.Seq (Re.Lit "=")
                (Re.Seq (Re.Star Re.is_space)
                   (Re.Group 2
                      (Re.Plus
                         (Re.complement
                            (Re.union (Re.is_char ",")
                               (Re.is_char ")")))))))))).

(** [module\s+(\w+)] *)
Definition module_pattern : Re.regex :=
  Re.Seq (Re.Lit "module")
    (Re.Seq (Re.Plus Re.is_space) (Re.Group 1 (Re.Plus Re.is_word))).

(** The dictionary with the keys [inputs], [outputs] and [parameters]. *)
Record Ports : Type := {
  inputs : list string;
  outputs : list string;
  parameters : list (string * string)
}.

(** [VerilogAnalyzer._extract_ports] *)
Definition _extract_ports (code : string) : Ports :=
  let input_matches := Re.findall1 (port_pattern "input") code in
  let output_matches := Re.findall1 (port_pattern "output") code in
  let param_matches := Re.findall2 parameter_pattern code in
  {| inputs := input_matches;
     outputs := output_matches;
     parameters := param_matches |}.

(** ** Occurrences of a text inside another *)

(** [sub] occurs in [s] at offset [length p]. *)
Definition occurs_at (sub s p : string) : Prop :=
  exists r, s = p ++ sub ++ r.

Definition occurs (sub s : string) : Prop :=
  exists p, occurs_at sub s p.

(** [p] is the text before the first occurrence of [sub] in [s]. *)
Definition first_occurrence (sub s p : string) : Prop :=
  occurs_at sub s p /\
  forall p', occurs_at sub s p' -> length p <= length p'.

(** ** More of Python's strings and paths *)

Module Str.

(** [s.lstrip()], [s.rstrip()], [s.strip()]: [str.isspace] and [\s]
    agree on every character. *)
Fixpoint lstrip (s : string) : string :=
  match s with
  | String c s' => if Re.is_space c then lstrip s' else s
  | EmptyString => EmptyString
  end.

Fixpoint rstrip (s : string) : string :=
  match s with
  | EmptyString => EmptyString
  | String c s' =>
      match rstrip s' with
      | EmptyString => if Re.is_space c then EmptyString else String c EmptyString
      | t => String c t
      end
  end.

Definition strip (s : string) : string := rstrip (lstrip s).

(** [os.path.join(a, b)] of [posixpath]. *)
Definition path_join (a b : string) : string :=
  if Py.startswith b "/" then b
  else if (a =? "") || Py.endswith a "/" then a ++ b
  else a ++ "/" ++ b.

(** [os.path.basename(p)] of [posixpath]: the text after the last
    slash. *)
Fixpoint basename (p : string) : string :=
  match p with
  | EmptyString => EmptyString
  | String c p' =>
      if Py.contains p' "/" then basename p'
      else if Ascii.eqb c "/" then p' else p
  end.

End Str.

(** ** Module records and the analyzer object *)

(** The dataclass [VerilogModule]. *)
Record VerilogModule : Type := {
  name : string;
  filename : string;
  code : string;
  ports : Ports;
  description : string;
  analysis : string
}.

(** [module.analysis = text] *)
Definition set_analysis (module : VerilogModule) (text : string)
  : VerilogModule :=
  {| name := name module;
     filename := filename module;
     code := code module;
     ports := ports module;
     description := description module;
     analysis := text |}.

(** The keys of the configuration that decide what the pipeline reads
    and writes.  The remaining keys (deployment name, temperature,
    token limit, requested sections) only shape the request sent to the
    external model. *)
Record Config : Type := {
  input_directory : string;
  file_extensions : list string;
  latex_filename : string
}.

(** A [VerilogAnalyzer] object: its configuration and its module
    collection.  Its client is the external model of the world below. *)
Record VerilogAnalyzer : Type := {
  config : Config;
  modules : list VerilogModule
}.

(** ** The world outside the program *)

(** What a call to the external model comes to: the text of the first
    choice, or the text of the exception raised inside the [try] block,
    by the request or by the reading of the response. *)
Inductive reply : Type :=
| Reply (content : string)
| Failure (reason : string).

(** The file system is read through oracles and the files written are
    journalled, most recent first; a file written earlier is read back
    from the journal, while [glob] and [path_exists] answer for the
    directory as it was found.  [construct] is what
    [VerilogAnalyzer(config_path)] comes to: the configuration, or the
    text of the exception of the loader or of the client set-up.  The
    external model answers its [n]th request by [model n], whatever the
    prompt; paths are those of [posixpath]. *)
Record World : Type := {
  glob : string -> list string;
  path_exists : string -> bool;
  file_text : string -> string + string;
  write_error : string -> option string;
  construct : string -> Config + string;
  model : nat -> reply;
  calls : nat;
  written : list (string * string)
}.

Definition set_calls (w : World) (n : nat) : World :=
  {| glob := glob w; path_exists := path_exists w; file_text := file_text w;
     write_error := write_error w; construct := construct w;
     model := model w; calls := n; written := written w |}.

Definition set_written (w : World) (j : list (string * string)) : World :=
  {| glob := glob w; path_exists := path_exists w; file_text := file_text w;
     write_error := write_error w; construct := construct w;
     model := model w; calls := calls w; written := j |}.

Fixpoint journal_lookup (path : string) (j : list (string * string))
  : option string :=
  match j with
  | [] => None
  | (p, text) :: rest => if p =? path then Some text else journal_lookup path rest
  end.

(** ** Computations that change a state and may raise *)

Inductive result (A : Type) : Type :=
| Return (a : A)
| Raise (e : string).

Arguments Return {A} a.
Arguments Raise {A} e.

Definition M (S A : Type) : Type := S -> result A * S.

Definition ret {S A : Type} (a : A) : M S A := fun st => (Return a, st).

Definition raise {S A : Type} (e : string) : M S A := fun st => (Raise e, st).

Definition bind {S A B : Type} (c : M S A) (f : A -> M S B) : M S B :=
  fun st =>
    match c st with
    | (Return a, st') => f a st'
    | (Raise e, st') => (Raise e, st')
    end.

(** [try: c  except Exception as e: h e]; what [c] changed before it
    raised stays changed. *)
Definition try_except {S A : Type} (c : M S A) (h : string -> M S A)
  : M S A :=
  fun st =>
    match c st with
    | (Return a, st') => (Return a, st')
    | (Raise e, st') => h e st'
    end.

Declare Scope monad_scope.
Delimit Scope monad_scope with monad.
Notation "x <- c ;; k" := (bind c (fun x => k))
  (at level 61, c at next level, right associativity) : monad_scope.
Notation "c ;; k" := (bind c (fun _ => k))
  (at level 61, right associativity) : monad_scope.
Open Scope monad_scope.

(** [for x in xs: body x] *)
Fixpoint for_each {S A : Type} (xs : list A) (body : A -> M S unit)
  : M S unit :=
  match xs with
  | [] => ret tt
  | x :: rest => body x ;; for_each rest body
  end.

(** ** The methods of [VerilogAnalyzer] *)

(** A method runs on the world and on the object [self]. *)
Record Ctx : Type := { env : World; self : VerilogAnalyzer }.

Definition get_self : M Ctx VerilogAnalyzer :=
  fun st => (Return (self st), st).

Definition get_env : M Ctx World :=
  fun st => (Return (env st), st).

Definition set_modules (ms : list VerilogModule) : M Ctx unit :=
  fun st =>
    (Return tt,
     {| env := env st;
        self := {| config := config (self st); modules := ms |} |}).

(** [with open(path, 'r') as file: file.read()] *)
Definition read_file (path : string) : M Ctx string :=
  fun st =>
    match journal_lookup path (written (env st)) with
    | Some text => (Return text, st)
    | None =>
        match file_text (env st) path with
        | inl text => (Return text, st)
        | inr e => (Raise e, st)
        end
    end.

(** [with open(path, 'w') as file: file.write(text)] *)
Definition write_file (path text : string) : M Ctx unit :=
  fun st =>
    match write_error (env st) path with
    | Some e => (Raise e, st)
    | None =>
        (Return tt,
         {| env := set_written (env st) ((path, text) :: written (env st));
            self := self st |})
    end.

(** [self.client.chat.completions.create(...)] followed by
    [response.choices[0].message.content]. *)
Definition chat : M Ctx string :=
  fun st =>
    let w := env st in
    let st' := {| env := set_calls w (S (calls w)); self := self st |} in
    match model w (calls w) with
    | Reply content => (Return content, st')
    | Failure reason => (Raise reason, st')
    end.

(** [VerilogAnalyzer._parse_verilog_file] *)
Definition _parse_verilog_file (file_path : string) : M Ctx unit :=
  try_except
    (code <- read_file file_path ;;
     match Re.search module_pattern code with
     | None => ret tt
     | Some module_match =>
         let module_name := Re.group_text module_match 1 in
         let filename := Str.basename file_path in
         let ports := _extract_ports code in
         let module :=
           {| name := module_name; filename := filename; code := code;
              ports := ports; description := ""; analysis := "" |} in
         a <- get_self ;;
         set_modules (modules a ++ [module])
     end)
    (fun _ => ret tt).

(** The list [verilog_files] that the first loop of
    [load_verilog_files] collects: one [glob] for each extension. *)
Definition verilog_files (w : World) (input_dir : string)
    (extensions : list string) : list string :=
  flat_map (fun ext => glob w (Str.path_join input_dir ("*" ++ ext)))
    extensions.

(** [VerilogAnalyzer.load_verilog_files]; [input_dir] is [None] when the
    caller leaves it out. *)
Definition load_verilog_files (input_dir : option string) : M Ctx unit :=
  a <- get_self ;;
  w <- get_env ;;
  let input_dir :=
    match input_dir with
    | None => input_directory (config a)
    | Some d => d
    end in
  let extensions := file_extensions (config a) in
  for_each (verilog_files w input_dir extensions) _parse_verilog_file.

(** [VerilogAnalyzer._analyze_single_module]: the prompt is built by
    text formatting, then the model is asked inside [try]. *)
Definition _analyze_single_module (module : VerilogModule) : M Ctx string :=
  try_except
    (content <- chat ;; ret (Str.strip content))
    (fun e => ret ("Analysis failed for module " ++ name module ++ ": " ++ e)).

(** [VerilogAnalyzer.analyze_modules]: the loop assigns the analysis of
    each record in place; [done] holds the records already visited. *)
Fixpoint analyze_each (done todo : list VerilogModule) : M Ctx unit :=
  match todo with
  | [] => ret tt
  | module :: rest =>
      analysis <- _analyze_single_module module ;;
      let module' := set_analysis module analysis in
      set_modules (done ++ module' :: rest) ;;
      analyze_each (done ++ [module']) rest
  end.

Definition analyze_modules : M Ctx unit :=
  a <- get_self ;;
  analyze_each [] (modules a).

(** [VerilogAnalyzer._generate_fallback_document] *)
Definition _generate_fallback_document : string :=
"
\begin{center}
{\Huge{Verilog Module Specification}} \\
\vspace{2mm}
{\Large{Digital Design Analysis}} \\
\vspace{1mm}
{\Large{Technical Documentation}}
\end{center}

\newpage
\tableofcontents
\newpage

\section{Introduction}
This document provides a comprehensive analysis of Verilog modules for digital design applications.

\section{Module Analysis}
Detailed analysis of each module would be provided here.

\section{Conclusions}
Summary and conclusions would be provided here.
".

(** [VerilogAnalyzer._generate_complete_document] *)
Definition _generate_complete_document : M Ctx string :=
  try_except
    (content <- chat ;; ret (Str.strip content))
    (fun _ => ret _generate_fallback_document).

(** [VerilogAnalyzer.generate_latex_document] *)
Definition generate_latex_document
    (template_path : string) (output_path : option string) : M Ctx unit :=
  a <- get_self ;;
  let output_path :=
    match output_path with
    | None => latex_filename (config a)
    | Some p => p
    end in
  template_content <- read_file template_path ;;
  document_content <- _generate_complete_document ;;
  let template_content :=
    _replace_entire_document_content template_content document_content in
  write_file output_path template_content.

(** [VerilogAnalyzer.run_complete_analysis] *)
Definition run_complete_analysis
    (input_dir : option string) (template_path : string)
    (output_path : option string) : M Ctx unit :=
  load_verilog_files input_dir ;;
  a <- get_self ;;
  match modules a with
  | [] => ret tt
  | _ :: _ =>
      analyze_modules ;;
      generate_latex_document template_path output_path
  end.

(** ** The remote tool front end *)

(** The input schema of a tool: a dictionary of type [object] with its
    [properties] and its [required] names. *)
Module Schema.

Record Property : Type := {
  key : string;
  type : string;
  description : string;
  default : option string
}.

Record t : Type := {
  properties : list Property;
  required : list string
}.

End Schema.

(** [Tool(name=..., description=..., inputSchema=...)] *)
Module Tool.

Record t : Type := {
  name : string;
  description : string;
  inputSchema : Schema.t
}.

End Tool.

(** [types.TextContent(type=..., text=...)] *)
Module TextContent.

Record t : Type := { type : string; text : string }.

End TextContent.

Definition text_content (t : string) : TextContent.t :=
  {| TextContent.type := "text"; TextContent.text := t |}.

Definition property (k d : string) (dflt : option string) : Schema.Property :=
  {| Schema.key := k; Schema.type := "string"; Schema.description := d;
     Schema.default := dflt |}.

Definition tool (n d : string) (ps : list Schema.Property)
    (req : list string) : Tool.t :=
  {| Tool.name := n; Tool.description := d;
     Tool.inputSchema := {| Schema.properties := ps; Schema.required := req |} |}.

(** [handle_list_tools] *)
Definition handle_list_tools : list Tool.t :=
  [ tool "initialize_analyzer"
      "Initialize the Verilog analyzer with configuration"
      [property "config_path"
         "Path to configuration file (default: config.yaml)"
         (Some "config.yaml")]
      [];
    tool "load_verilog_files"
      "Load Verilog files from a directory"
      [property "input_dir" "Directory path containing Verilog files" None]
      ["input_dir"];
    tool "get_loaded_modules"
      "Get information about currently loaded Verilog modules"
      [] [];
    tool "parse_verilog_file"
      "Parse a specific Verilog file and extract module information"
      [property "file_path" "Path to the Verilog file to parse" None]
      ["file_path"];
    tool "extract_ports"
      "Extract port information from Verilog code"
      [property "verilog_code" "Verilog code to analyze for ports" None]
      ["verilog_code"];
    tool "analyze_single_module"
      "Perform LLM analysis on a specific module"
      [property "module_name" "Name of the module to analyze" None]
      ["module_name"];
    tool "analyze_all_modules"
      "Perform LLM analysis on all loaded modules"
      [] [];
    tool "generate_latex_document"
      "Generate LaTeX specification document from analyzed modules"
      [property "template_path" "Path to LaTeX template file"
         (Some "template.tex");
       property "output_path" "Output path for generated LaTeX document"
         None]
      [];
    tool "run_complete_analysis"
      "Run the complete analysis pipeline from directory to LaTeX document"
      [property "input_dir" "Directory path containing Verilog files" None;
       property "template_path" "Path to LaTeX template file"
         (Some "template.tex");
       property "output_path" "Output path for generated LaTeX document"
         None]
      ["input_dir"];
    tool "get_module_details"
      "Get detailed information about a specific module"
      [property "module_name" "Name of the module to get details for" None]
      ["module_name"] ].

(** The argument object of a call: a dictionary from names to texts. *)
Definition arguments : Type := list (string * string).

(** [arguments.get(k)] *)
Fixpoint get (args : arguments) (k : string) : option string :=
  match args with
  | [] => None
  | (k', v) :: rest => if k' =? k then Some v else get rest k
  end.

(** [arguments.get(k, dflt)] *)
Definition get_default (args : arguments) (k dflt : string) : string :=
  match get args k with Some v => v | None => dflt end.

(** [arguments[k]]: a missing key raises [KeyError(k)], whose text is
    the key between quotes. *)
Definition subscript {S : Type} (args : arguments) (k : string) : M S string :=
  match get args k with
  | Some v => ret v
  | None => raise ("'" ++ k ++ "'")
  end.

(** [', '.join(xs) if xs else 'None'] *)
Definition join_or_none (xs : list string) : string :=
  match xs with
  | [] => "None"
  | _ :: _ => Py.join ", " xs
  end.

(** The three lines [Inputs], [Outputs], [Parameters] printed for a
    ports dictionary. *)
Definition inputs_line (p : Ports) : string :=
  "Inputs: " ++ join_or_none (inputs p).

Definition outputs_line (p : Ports) : string :=
  "Outputs: " ++ join_or_none (outputs p).

Definition parameters_line (p : Ports) : string :=
  "Parameters: " ++
  join_or_none (map (fun q => fst q ++ "=" ++ snd q) (parameters p)).

(** [next((m for m in modules if m.name == module_name), None)] *)
Fixpoint find_module (module_name : string) (ms : list VerilogModule)
  : option VerilogModule :=
  match ms with
  | [] => None
  | m :: rest =>
      if name m =? module_name then Some m else find_module module_name rest
  end.

(** The assignment [module.analysis = text] on the record found by
    [find_module]. *)
Fixpoint assign_analysis (module_name text : string) (ms : list VerilogModule)
  : list VerilogModule :=
  match ms with
  | [] => []
  | m :: rest =>
      if name m =? module_name then set_analysis m text :: rest
      else m :: assign_analysis module_name text rest
  end.

(** [modules[-1] if modules else None] *)
Definition last_module (ms : list VerilogModule) : option VerilogModule :=
  List.last (map Some ms) None.

Definition names (ms : list VerilogModule) : list string := map name ms.

(** [output_path or config['output']['latex_filename']] *)
Definition final_output (output_path : option string) (a : VerilogAnalyzer)
  : string :=
  match output_path with
  | Some p => if p =? "" then latex_filename (config a) else p
  | None => latex_filename (config a)
  end.

(** The global [analyzer_instance] next to the world. *)
Record Server : Type := {
  host : World;
  analyzer_instance : option VerilogAnalyzer
}.

(** [analyzer_instance = VerilogAnalyzer(config_path)]: the constructor
    loads the configuration and builds the client, or raises; the module
    collection of a new analyzer is empty. *)
Definition new_analyzer (config_path : string) : M Server unit :=
  fun st =>
    match construct (host st) config_path with
    | inl cfg =>
        (Return tt,
         {| host := host st;
            analyzer_instance := Some {| config := cfg; modules := [] |} |})
    | inr e => (Raise e, st)
    end.

(** [if analyzer_instance is None: analyzer_instance = VerilogAnalyzer()] *)
Definition ensure_analyzer : M Server unit :=
  fun st =>
    match analyzer_instance st with
    | Some _ => (Return tt, st)
    | None => new_analyzer "config.yaml" st
    end.

(** A method run on [analyzer_instance].  An attribute of [None] raises
    [AttributeError]; every use below follows [ensure_analyzer]. *)
Definition on_instance {A : Type} (c : M Ctx A) : M Server A :=
  fun st =>
    match analyzer_instance st with
    | Some a =>
        match c {| env := host st; self := a |} with
        | (r, ctx) =>
            (r, {| host := env ctx; analyzer_instance := Some (self ctx) |})
        end
    | None => (Raise "'NoneType' object has no attribute", st)
    end.

Definition reply_text (t : string) : M Ctx (list TextContent.t) :=
  ret [text_content t].

(** The branches of [handle_call_tool], in the order of the source. *)

Definition call_load_verilog_files (args : arguments)
  : M Ctx (list TextContent.t) :=
  input_dir <- subscript args "input_dir" ;;
  w <- get_env ;;
  if negb (path_exists w input_dir) then
    reply_text ("Error: Directory " ++ input_dir ++ " does not exist")
  else
    load_verilog_files (Some input_dir) ;;
    a <- get_self ;;
    let module_names := names (modules a) in
    reply_text
      ("Successfully loaded " ++ Py.str_of_nat (List.length (modules a)) ++
       " Verilog modules from " ++ input_dir ++ ":" ++ Py.nl ++
       "Modules: " ++ Py.join ", " module_names).

Definition call_get_loaded_modules : M Ctx (list TextContent.t) :=
  a <- get_self ;;
  match modules a with
  | [] =>
      reply_text "No modules currently loaded. Use load_verilog_files first."
  | _ :: _ =>
      let modules_info :=
        map (fun module =>
               "- " ++ name module ++ " (from " ++ filename module ++ ")")
          (modules a) in
      reply_text
        ("Currently loaded modules (" ++
         Py.str_of_nat (List.length (modules a)) ++ "):" ++ Py.nl ++
         Py.join Py.nl modules_info)
  end.

Definition call_parse_verilog_file (args : arguments)
  : M Ctx (list TextContent.t) :=
  file_path <- subscript args "file_path" ;;
  w <- get_env ;;
  if negb (path_exists w file_path) then
    reply_text ("Error: File " ++ file_path ++ " does not exist")
  else
    _parse_verilog_file file_path ;;
    a <- get_self ;;
    match last_module (modules a) with
    | Some module =>
        reply_text
          ("Successfully parsed " ++ file_path ++ ":" ++ Py.nl ++
           "Module: " ++ name module ++ Py.nl ++
           inputs_line (ports module) ++ Py.nl ++
           outputs_line (ports module) ++ Py.nl ++
           parameters_line (ports module))
    | None => reply_text ("Failed to parse module from " ++ file_path)
    end.

Definition call_extract_ports (args : arguments)
  : M Ctx (list TextContent.t) :=
  verilog_code <- subscript args "verilog_code" ;;
  let ports := _extract_ports verilog_code in
  reply_text
    ("Extracted ports from Verilog code:" ++ Py.nl ++
     inputs_line ports ++ Py.nl ++
     outputs_line ports ++ Py.nl ++
     parameters_line ports).

Definition module_not_found (module_name : string) (a : VerilogAnalyzer)
  : M Ctx (list TextContent.t) :=
  reply_text
    ("Module '" ++ module_name ++ "' not found. Available modules: " ++
     Py.join ", " (names (modules a))).

Definition call_analyze_single_module (args : arguments)
  : M Ctx (list TextContent.t) :=
  module_name <- subscript args "module_name" ;;
  a <- get_self ;;
  match find_module module_name (modules a) with
  | None => module_not_found module_name a
  | Some module =>
      analysis <- _analyze_single_module module ;;
      a' <- get_self ;;
      set_modules (assign_analysis module_name analysis (modules a')) ;;
      reply_text
        ("Analysis completed for module '" ++ module_name ++ "':" ++
         Py.nl ++ Py.nl ++ analysis)
  end.

Definition call_analyze_all_modules : M Ctx (list TextContent.t) :=
  a <- get_self ;;
  match modules a with
  | [] => reply_text "No modules loaded. Use load_verilog_files first."
  | _ :: _ =>
      analyze_modules ;;
      a' <- get_self ;;
      let results :=
        map (fun module =>
               "Module: " ++ name module ++ Py.nl ++
               "Analysis: " ++ Py.slice_to (analysis module) 200 ++ "...")
          (modules a') in
      reply_text
        ("Analysis completed for " ++
         Py.str_of_nat (List.length (modules a')) ++ " modules:" ++
         Py.nl ++ Py.nl ++ Py.join (Py.nl ++ Py.nl) results)
  end.

Definition call_generate_latex_document (args : arguments)
  : M Ctx (list TextContent.t) :=
  a <- get_self ;;
  match modules a with
  | [] => reply_text "No modules loaded. Load and analyze modules first."
  | _ :: _ =>
      let template_path := get_default args "template_path" "template.tex" in
      let output_path := get args "output_path" in
      generate_latex_document template_path output_path ;;
      a' <- get_self ;;
      reply_text
        ("LaTeX document generated successfully: " ++
         final_output output_path a')
  end.

Definition call_run_complete_analysis (args : arguments)
  : M Ctx (list TextContent.t) :=
  input_dir <- subscript args "input_dir" ;;
  let template_path := get_default args "template_path" "template.tex" in
  let output_path := get args "output_path" in
  run_complete_analysis (Some input_dir) template_path output_path ;;
  a <- get_self ;;
  reply_text
    ("Complete analysis pipeline finished successfully!" ++ Py.nl ++
     "Processed " ++ Py.str_of_nat (List.length (modules a)) ++
     " modules" ++ Py.nl ++
     "Generated document: " ++ final_output output_path a ++ Py.nl ++
     "Modules: " ++ Py.join ", " (names (modules a))).

Definition call_get_module_details (args : arguments)
  : M Ctx (list TextContent.t) :=
  module_name <- subscript args "module_name" ;;
  a <- get_self ;;
  match find_module module_name (modules a) with
  | None => module_not_found module_name a
  | Some module =>
      let details :=
        "Module: " ++ name module ++ Py.nl ++
        "File: " ++ filename module ++ Py.nl ++
        inputs_line (ports module) ++ Py.nl ++
        outputs_line (ports module) ++ Py.nl ++
        parameters_line (ports module) ++ Py.nl ++
        "Has Analysis: " ++
        (if analysis module =? "" then "No" else "Yes") ++ Py.nl in
      let details :=
        if analysis module =? "" then details
        else details ++ Py.nl ++ "Analysis Preview:" ++ Py.nl ++
             Py.slice_to (analysis module) 300 ++ "..." in
      reply_text details
  end.

(** The [if]/[elif] chain that follows the lazy initialisation. *)
Definition call_tool (name : string) (args : arguments)
  : M Ctx (list TextContent.t) :=
  if name =? "load_verilog_files" then call_load_verilog_files args
  else if name =? "get_loaded_modules" then call_get_loaded_modules
  else if name =? "parse_verilog_file" then call_parse_verilog_file args
  else if name =? "extract_ports" then call_extract_ports args
  else if name =? "analyze_single_module" then call_analyze_single_module args
  else if name =? "analyze_all_modules" then call_analyze_all_modules
  else if name =? "generate_latex_document" then
    call_generate_latex_document args
  else if name =? "run_complete_analysis" then call_run_complete_analysis args
  else if name =? "get_module_details" then call_get_module_details args
  else reply_text ("Unknown tool: " ++ name).

(** [handle_call_tool] *)
Definition handle_call_tool (name : string) (args : arguments)
  : M Server (list TextContent.t) :=
  try_except
    (if name =? "initialize_analyzer" then
       let config_path := get_default args "config_path" "config.yaml" in
       new_analyzer config_path ;;
       ret [text_content
              ("Verilog analyzer initialized successfully with config: " ++
               config_path)]
     else
       ensure_analyzer ;;
       on_instance (call_tool name args))
    (fun e =>
       ret [text_content ("Error executing tool " ++ name ++ ": " ++ e)]).

(** ** Vocabulary of the statements *)

(** Every character of [s] is in the class [cs]. *)
Fixpoint all_in (cs : Re.charset) (s : string) : bool :=
  match s with
  | EmptyString => true
  | String c s' => cs c && all_in cs s'
  end.

(** [s] is empty or begins with a character outside [cs]. *)
Definition starts_outside (cs : Re.charset) (s : string) : Prop :=
  match s with
  | EmptyString => True
  | String c _ => cs c = false
  end.

(** The longest prefix of [s] made of characters of [cs], and what
    follows it. *)
Fixpoint take_while (cs : Re.charset) (s : string) : string :=
  match s with
  | String c s' => if cs c then String c (take_while cs s') else EmptyString
  | EmptyString => EmptyString
  end.

Fixpoint drop_while (cs : Re.charset) (s : string) : string :=
  match s with
  | String c s' => if cs c then drop_while cs s' else s
  | EmptyString => EmptyString
  end.

(** The match of [module\s+(\w+)] at the start of a text, in closed
    form. *)
Definition module_match_here (s : string) : option Re.Match :=
  if prefix "module" s then
    match Py.drop 6 s with
    | String c s1 =>
        if Re.is_space c then
          match drop_while Re.is_space s1 with
          | String d t =>
              if Re.is_word d then
                Some {| Re.span := length s - length (drop_while Re.is_word t);
                        Re.captured :=
                          [(1, String d (take_while Re.is_word t))] |}
              else None
          | EmptyString => None
          end
        else None
    | EmptyString => None
    end
  else None.

(** After the text [pre], [code] holds the keyword [module], white
    space, and the identifier [n] in full. *)
Definition declared_at (code pre n : string) : Prop :=
  exists ws rest,
    code = pre ++ "module" ++ ws ++ n ++ rest /\
    ws <> "" /\ all_in Re.is_space ws = true /\
    n <> "" /\ all_in Re.is_word n = true /\
    starts_outside Re.is_word rest.

(** [n] is the identifier of the first place of [code] where the keyword
    [module] is followed by white space and an identifier. *)
Definition first_declared (code n : string) : Prop :=
  exists pre,
    declared_at code pre n /\
    forall pre' n', declared_at code pre' n' -> length pre <= length pre'.

(** The text that opening and reading [path] yields, when it yields
    one. *)
Definition readable_text (w : World) (path : string) : option string :=
  match journal_lookup path (written w) with
  | Some text => Some text
  | None =>
      match file_text w path with
      | inl text => Some text
      | inr _ => None
      end
  end.

(** The readable files of an enumeration, each with its text, in the
    order of the enumeration. *)
Fixpoint readable_files (w : World) (files : list string)
  : list (string * string) :=
  match files with
  | [] => []
  | path :: rest =>
      match readable_text w path with
      | Some text => (path, text) :: readable_files w rest
      | None => readable_files w rest
      end
  end.

(** The text holds a match of the module-name pattern. *)
Definition has_module (file : string * string) : bool :=
  match Re.search module_pattern (snd file) with
  | Some _ => true
  | None => false
  end.

(** The record [r] is the one built from the file [path] of text
    [text]. *)
Definition loaded_from (file : string * string) (r : VerilogModule) : Prop :=
  first_declared (snd file) (name r) /\
  filename r = Str.basename (fst file) /\
  code r = snd file /\
  ports r = _extract_ports (snd file) /\
  description r = "" /\
  analysis r = "".

(** The state [st] with [records] appended to the module collection. *)
Definition add_modules (st : Ctx) (records : list VerilogModule) : Ctx :=
  {| env := env st;
     self := {| config := config (self st);
                modules := modules (self st) ++ records |} |}.

(** The text that [_analyze_single_module] returns for [module] when
    the external model gives the reply [r]. *)
Definition analysis_of (r : reply) (module : VerilogModule) : string :=
  match r with
  | Reply content => Str.strip content
  | Failure reason =>
      "Analysis failed for module " ++ name module ++ ": " ++ reason
  end.

(** The records [ms] once analysed by the replies numbered from [n]. *)
Fixpoint analysed (answers : nat -> reply) (n : nat) (ms : list VerilogModule)
  : list VerilogModule :=
  match ms with
  | [] => []
  | m :: rest =>
      set_analysis m (analysis_of (answers n) m) :: analysed answers (S n) rest
  end.

(** The state [st] after [k] more requests to the external model and
    with the module collection [ms]. *)
Definition after_requests (st : Ctx) (k : nat) (ms : list VerilogModule)
  : Ctx :=
  {| env := set_calls (env st) (calls (env st) + k);
     self := {| config := config (self st); modules := ms |} |}.

(** A computation that returns, when it returns, one text payload. *)
Definition single_text {S : Type} (c : M S (list TextContent.t)) : Prop :=
  forall st,
    match fst (c st) with
    | Return l => exists t, l = [text_content t]
    | Raise _ => True
    end.

(** The names of the dispatch table. *)
Definition tool_names : list string := map Tool.name handle_list_tools.

(** The call [name], [args] leaves out an argument that the table
    requires. *)
Definition misses_required (name : string) (args : arguments) : Prop :=
  exists tool r,
    In tool handle_list_tools /\ Tool.name tool = name /\
    In r (Schema.required (Tool.inputSchema tool)) /\ get args r = None.

(** The message of the parse operation that describes [module] as the
    outcome of parsing [file_path]. *)
Definition parsed_message (file_path : string) (module : VerilogModule)
  : string :=
  "Successfully parsed " ++ file_path ++ ":" ++ Py.nl ++
  "Module: " ++ name module ++ Py.nl ++
  "Inputs: " ++ join_or_none (inputs (ports module)) ++ Py.nl ++
  "Outputs: " ++ join_or_none (outputs (ports module)) ++ Py.nl ++
  "Parameters: " ++
  join_or_none
    (map (fun q => fst q ++ "=" ++ snd q) (parameters (ports module))).

(** ** Sample data *)

Definition sample_config : Config :=
  {| input_directory := "rtl";
     file_extensions := [".v"; ".sv"];
     latex_filename := "spec.tex" |}.

Definition sample_module : VerilogModule :=
  {| name := "counter"; filename := "counter.v";
     code := "module counter(input clk, output reg q); endmodule";
     ports := {| inputs := ["clk"]; outputs := ["q"]; parameters := [] |};
     description := ""; analysis := "" |}.

(** A world with an empty input directory, one template, a writable
    disk and an external model that is out of reach. *)
Definition sample_world : World :=
  {| glob := fun _ => [];
     path_exists := fun _ => true;
     file_text :=
       fun path =>
         if path =? "template.tex"
         then inl "PRE\begin{document}OLD\end{document}POST"
         else if path =? "notes.v"
         then inl "// submodules are listed in the manual"
         else inr "[Errno 2] No such file or directory";
     write_error := fun _ => None;
     construct := fun _ => inl sample_config;
     model := fun _ => Failure "Connection error.";
     calls := 0;
     written := [] |}.

(** A server that has not built its analyzer yet. *)
Definition sample_server : Server :=
  {| host := sample_world; analyzer_instance := None |}.

(** A server whose analyzer holds one module loaded earlier. *)
Definition sample_loaded_server : Server :=
  {| host := sample_world;
     analyzer_instance :=
       Some {| config := sample_config; modules := [sample_module] |} |}.

(** An analyzer that holds one module loaded earlier. *)
Definition sample_loaded : Ctx :=
  {| env := sample_world;
     self := {| config := sample_config; modules := [sample_module] |} |}.

(** ** Further functions of the program *)

(** [s[a:b]] *)
Definition slice (s : string) (a b : Z) : string :=
  let start := Py.clamp a (length s) in
  let stop := Py.clamp b (length s) in
  Py.take (stop - start) (Py.drop start s).


(** The client that [AzureOpenAI(api_key=..., azure_endpoint=...,
    api_version=...)] builds, as the settings it is built with. *)
Record AzureOpenAI : Type := {
  api_key : string;
  azure_endpoint : string;
  api_version : string
}.

(** The process environment, read by [os.getenv]. *)
Definition Environ : Type := string -> option string.

Definition getenv (name : string) : M Environ (option string) :=
  fun env => (Return (env name), env).

(** The block that [_initialize_openai_client] applies to the key and
    then to the endpoint: a value of the form [${NAME}] is replaced by
    the variable [NAME] of the environment, and [ValueError(error)] is
    raised when the variable is unset or empty. *)
Definition resolve (value error : string) : M Environ string :=
  if Py.startswith value "${" && Py.endswith value "}" then
    let env_var := slice value 2 (-1) in
    found <- getenv env_var ;;
    match found with
    | Some v => if v =? "" then raise error else ret v
    | None => raise error
    end
  else ret value.

(** [VerilogAnalyzer._initialize_openai_client], on the dictionary
    [config['azure_openai']]. *)
Definition _initialize_openai_client (config : arguments)
  : M Environ AzureOpenAI :=
  api_key <- subscript config "api_key" ;;
  endpoint <- subscript config "endpoint" ;;
  api_version <- subscript config "api_version" ;;
  api_key <- resolve api_key "Azure OpenAI API key not configured" ;;
  endpoint <- resolve endpoint "Azure OpenAI endpoint not configured" ;;
  ret {| api_key := api_key;
         azure_endpoint := endpoint;
         api_version := api_version |}.

(** ** Further vocabulary *)


(** The records that parsing the file [file] appends: one when its text
    holds a match of the module-name pattern, none otherwise. *)
Definition record_of (file : string * string) : list VerilogModule :=
  match Re.search module_pattern (snd file) with
  | Some m =>
      [{| name := Re.group_text m 1;
          filename := Str.basename (fst file);
          code := snd file;
          ports := _extract_ports (snd file);
          description := "";
          analysis := "" |}]
  | None => []
  end.

(** The records that loading the enumeration [files] appends. *)
Definition records_from (w : World) (files : list string)
  : list VerilogModule :=
  flat_map record_of (readable_files w files).

(** The enumeration that [load_verilog_files input_dir] walks. *)
Definition enumeration (st : Ctx) (input_dir : option string) : list string :=
  verilog_files (env st)
    match input_dir with
    | Some d => d
    | None => input_directory (config (self st))
    end
    (file_extensions (config (self st))).

(** A disk with one directory of two files, one of which declares a
    module, a template and a configuration; the external model answers
    its first request and fails afterwards. *)
Definition sample_disk : World :=
  {| glob :=
       fun pattern =>
         if pattern =? "rtl/*.v" then ["rtl/counter.v"; "rtl/notes.v"] else [];
     path_exists := fun _ => true;
     file_text :=
       fun path =>
         if path =? "rtl/counter.v"
         then inl "module counter(input clk, output reg q); endmodule"
         else if path =? "rtl/notes.v"
         then inl "// submodules are listed in the manual"
         else if path =? "template.tex"
         then inl "PRE\begin{document}OLD\end{document}POST"
         else inr "[Errno 2] No such file or directory";
     write_error := fun _ => None;
     construct :=
       fun path =>
         if path =? "config.yaml" then inl sample_config
         else inr "[Errno 2] No such file or directory";
     model :=
       fun n => if Nat.eqb n 0 then Reply " A counter. "
                else Failure "Connection error.";
     calls := 0;
     written := [] |}.

(** A new analyzer on that disk. *)
Definition sample_fresh : Ctx :=
  {| env := sample_disk;
     self := {| config := sample_config; modules := [] |} |}.

(** What follows the keyword and its white space in a port pattern:
    the storage class, the bit range and the name. *)
Definition port_tail : Re.regex :=
  Re.Seq storage_class (Re.Seq bit_range (Re.Group 1 (Re.Plus Re.is_word))).

(** The configured value [x] stands for [y] in the environment [env]:
    [x] is [${NAME}] and [NAME] is set to [y], not empty; or [x] has
    not that form and [y] is [x]. *)
Definition stands_for (env : Environ) (x y : string) : Prop :=
  (exists name, x = "${" ++ name ++ "}" /\ env name = Some y /\ y <> "") \/
  ((forall name, x <> "${" ++ name ++ "}") /\ y = x).

(** The configured value [x] names a variable that [env] does not set,
    or sets to the empty text. *)
Definition unresolved (env : Environ) (x : string) : Prop :=
  exists name,
    x = "${" ++ name ++ "}" /\ (env name = None \/ env name = Some "").

(** The computation [c] keeps the property [P] of the state, whether it
    returns or raises. *)
Definition keeps {S A : Type} (P : S -> Prop) (c : M S A) : Prop :=
  forall st, P st -> P (snd (c st)).

(** A record as the loader builds it: its name is the identifier that
    its text declares first; its filename holds no slash; its ports are
    the extraction from its text; its description is empty. *)
Definition well_formed (m : VerilogModule) : Prop :=
  first_declared (code m) (name m) /\
  name m <> "" /\ all_in Re.is_word (name m) = true /\
  occurs "module" (code m) /\
  ~ occurs "/" (filename m) /\
  ports m = _extract_ports (code m) /\
  description m = "".

(** Every record of the collection is well formed. *)
Definition collection_ok (st : Ctx) : Prop :=
  Forall well_formed (modules (self st)).

Definition server_ok (st : Server) : Prop :=
  match analyzer_instance st with
  | Some a => Forall well_formed (modules a)
  | None => True
  end.

(** The server after a sequence of calls, each with its name and its
    argument object. *)
Fixpoint serve (calls : list (string * arguments)) (st : Server) : Server :=
  match calls with
  | [] => st
  | (name, args) :: rest => serve rest (snd (handle_call_tool name args st))
  end.

(** The answers of the server to a sequence of calls. *)
Fixpoint answers (requests : list (string * arguments)) (st : Server)
  : list (result (list TextContent.t)) :=
  match requests with
  | [] => []
  | (name, args) :: rest =>
      fst (handle_call_tool name args st)
      :: answers rest (snd (handle_call_tool name args st))
  end.

(** The pattern holds no capturing group. *)
Fixpoint group_free (r : Re.regex) : bool :=
  match r with
  | Re.Lit _ | Re.Plus _ | Re.Star _ => true
  | Re.Seq a b | Re.Alt a b => group_free a && group_free b
  | Re.Opt a => group_free a
  | Re.Group _ _ => false
  end.

(** [[^,\)]]: the characters of a parameter value. *)
Definition value_char : Re.charset :=
  Re.complement (Re.union (Re.is_char ",") (Re.is_char ")")).

(** [n] is a name that extraction may report from [code]: a run of
    word characters, not empty, that stands in [code] and is not
    followed there by a word character. *)
Definition reported_name (code n : string) : Prop :=
  n <> "" /\ all_in Re.is_word n = true /\
  exists p t, code = p ++ n ++ t /\ starts_outside Re.is_word t.

(** [v] is a value that extraction may report from [code]: a run of
    characters other than the comma and the closing parenthesis, not
    empty, that stands in [code] and reaches the next comma, the next
    closing parenthesis or the end of [code]. *)
Definition reported_value (code v : string) : Prop :=
  v <> "" /\ all_in value_char v = true /\
  exists p t, code = p ++ v ++ t /\ starts_outside value_char t.

(** [q] is a parameter that extraction may report from [code]: its
    name is a run of word characters, not empty, that stands in [code],
    and its value is as [reported_value] says. *)
Definition reported_parameter (code : string) (q : string * string) : Prop :=
  fst q <> "" /\ all_in Re.is_word (fst q) = true /\ occurs (fst q) code /\
  reported_value code (snd q).

(** * Properties *)

(** ** Basic facts on strings *)

Section StringFacts.

Lemma append_assoc (a b c : string) : (a ++ b) ++ c = a ++ (b ++ c).
Proof. induction a as [|x a IH]; simpl; [reflexivity | now rewrite IH]. Qed.

Lemma append_nil_r (a : string) : a ++ "" = a.
Proof. induction a as [|x a IH]; simpl; [reflexivity | now rewrite IH]. Qed.

Lemma length_append (a b : string) :
  length (a ++ b) = length a + length b.
Proof. induction a as [|x a IH]; simpl; [reflexivity | now rewrite IH]. Qed.

Lemma take_append (a b : string) : Py.take (length a) (a ++ b) = a.
Proof. induction a as [|x a IH]; simpl; [now destruct b | now rewrite IH]. Qed.

Lemma drop_append (a b : string) : Py.drop (length a) (a ++ b) = b.
Proof. induction a as [|x a IH]; simpl; [now destruct b | exact IH]. Qed.

Lemma take_drop (n : nat) (s : string) : Py.take n s ++ Py.drop n s = s.
Proof.
  revert s; induction n as [|n IH]; intros [|c s]; simpl; try reflexivity.
  now rewrite IH.
Qed.

Lemma prefix_iff (p s : string) :
  prefix p s = true <-> exists r, s = p ++ r.
Proof.
  revert s; induction p as [|x p IH]; intros s.
  - split; [intros _; now exists s | intros _; now destruct s].
  - destruct s as [|y s]; simpl.
    + split; [discriminate | intros [r Hr]; discriminate].
    + destruct (ascii_dec x y) as [->|Hxy].
      * rewrite IH. split; intros [r Hr]; exists r; congruence.
      * split; [discriminate | intros [r Hr]; congruence].
Qed.

Lemma find_from_unfold (sub s : string) (i : Z) :
  Py.find_from sub s i =
  if prefix sub s then i
  else match s with
       | EmptyString => (-1)%Z
       | String _ s' => Py.find_from sub s' (i + 1)%Z
       end.
Proof. destruct s; reflexivity. Qed.

End StringFacts.

(** ** [str.find] locates the first occurrence *)

Section Find.

Lemma occurs_at_nil (sub s : string) :
  occurs_at sub s "" <-> prefix sub s = true.
Proof. unfold occurs_at; simpl. now rewrite prefix_iff. Qed.

Lemma occurs_at_cons (sub : string) (c : ascii) (s p : string) :
  occurs_at sub (String c s) (String c p) <-> occurs_at sub s p.
Proof.
  unfold occurs_at; simpl; split; intros [r Hr]; exists r; congruence.
Qed.

Lemma occurs_at_head (sub : string) (c d : ascii) (s p : string) :
  occurs_at sub (String c s) (String d p) -> c = d.
Proof. intros [r Hr]; simpl in Hr; congruence. Qed.

Lemma find_from_spec (sub s : string) (i : Z) :
  (Py.find_from sub s i = (-1)%Z /\ ~ occurs sub s) \/
  (exists p, first_occurrence sub s p /\
             Py.find_from sub s i = (i + Z.of_nat (length p))%Z) \/
  (i < 0)%Z.
Proof.
  destruct (Z_lt_ge_dec i 0) as [Hneg|Hi]; [now right; right|].
  revert i Hi; induction s as [|c s IH]; intros i Hi;
    rewrite find_from_unfold;
    destruct (prefix sub _) eqn:Hp.
  - right; left. exists "". split; [|simpl; lia].
    split; [now apply occurs_at_nil | simpl; lia].
  - left. split; [reflexivity|]. intros [p Hocc].
    destruct p as [|d p]; [apply occurs_at_nil in Hocc; congruence|].
    destruct Hocc as [r Hr]; discriminate.
  - right; left. exists "". split; [|simpl; lia].
    split; [now apply occurs_at_nil | simpl; lia].
  - destruct (IH (i + 1)%Z ltac:(lia)) as [[Hm Hno]|[[p [[Hocc Hmin] Hf]]|Hlt]];
      [left | right; left | lia].
    + split; [exact Hm|]. intros [p Hocc].
      destruct p as [|d p]; [apply occurs_at_nil in Hocc; congruence|].
      pose proof (occurs_at_head _ _ _ _ _ Hocc) as <-.
      apply occurs_at_cons in Hocc. apply Hno. now exists p.
    + exists (String c p). split; [split|].
      * now apply occurs_at_cons.
      * intros [|d p'] Hocc'; [apply occurs_at_nil in Hocc'; congruence|].
        pose proof (occurs_at_head _ _ _ _ _ Hocc') as <-.
        apply occurs_at_cons in Hocc'. specialize (Hmin _ Hocc'). simpl; lia.
      * rewrite Hf. simpl length. lia.
Qed.

Lemma find_absent (s sub : string) :
  Py.find s sub = (-1)%Z <-> ~ occurs sub s.
Proof.
  unfold Py.find.
  destruct (find_from_spec sub s 0) as [[Hm Hno]|[[p [[Hocc _] Hf]]|Hlt]];
    [| |lia].
  - tauto.
  - split; [lia | intros Hno; exfalso; apply Hno; now exists p].
Qed.

Lemma find_present (s sub : string) :
  occurs sub s ->
  exists p, first_occurrence sub s p /\ Py.find s sub = Z.of_nat (length p).
Proof.
  intros Hocc. unfold Py.find.
  destruct (find_from_spec sub s 0) as [[Hm Hno]|[[p [Hfirst Hf]]|Hlt]];
    [tauto | | lia].
  exists p. split; [exact Hfirst | rewrite Hf; lia].
Qed.

End Find.

(** ** The splice between the two markers *)

Section Splice.

Lemma slice_to_prefix (a b : string) :
  Py.slice_to (a ++ b) (Z.of_nat (length a)) = a.
Proof.
  unfold Py.slice_to, Py.clamp.
  destruct (Z.ltb_spec (Z.of_nat (length a)) 0) as [Hlt|_]; [lia|].
  rewrite Nat2Z.id, length_append, Nat.min_l by lia.
  apply take_append.
Qed.

Lemma slice_from_prefix (a b : string) :
  Py.slice_from (a ++ b) (Z.of_nat (length a)) = b.
Proof.
  unfold Py.slice_from, Py.clamp.
  destruct (Z.ltb_spec (Z.of_nat (length a)) 0) as [Hlt|_]; [lia|].
  rewrite Nat2Z.id, length_append, Nat.min_l by lia.
  apply drop_append.
Qed.

Lemma replace_without_marker (template body : string) :
  ~ occurs begin_document template \/ ~ occurs end_document template ->
  _replace_entire_document_content template body = template.
Proof.
  intros H. unfold _replace_entire_document_content.
  destruct H as [H|H]; apply find_absent in H; rewrite H; simpl.
  - reflexivity.
  - now rewrite orb_true_r.
Qed.

Lemma replace_with_markers (template body : string) :
  occurs begin_document template -> occurs end_document template ->
  exists pre front post,
    first_occurrence begin_document template pre /\
    first_occurrence end_document template front /\
    template = front ++ post /\
    _replace_entire_document_content template body =
    (pre ++ begin_document) ++ Py.nl ++ Py.nl ++ body ++
    Py.nl ++ Py.nl ++ post.
Proof.
  intros Hb He.
  destruct (find_present _ _ Hb) as [pre [Hpre Hfb]].
  destruct (find_present _ _ He) as [front [Hfront Hfe]].
  destruct Hpre as [[r1 Hr1] Hmin1]. destruct Hfront as [[r2 Hr2] Hmin2].
  exists pre, front, (end_document ++ r2).
  repeat split; try assumption; try (now exists r1); try (now exists r2).
  unfold _replace_entire_document_content. rewrite Hfb, Hfe.
  replace ((Z.of_nat (length pre) =? -1) || (Z.of_nat (length front) =? -1))%Z
    with false
    by (symmetry; apply orb_false_iff; split; apply Z.eqb_neq; lia).
  f_equal.
  - rewrite <- Nat2Z.inj_add, <- length_append.
    rewrite Hr1 at 1. rewrite <- append_assoc. apply slice_to_prefix.
  - do 5 f_equal. rewrite Hr2 at 1. apply slice_from_prefix.
Qed.

End Splice.

(** C1.  When the template holds both markers, assembly returns the
    template up to and including the first [\begin{document}], then the
    body between blank-line separators, then the template from the first
    [\end{document}] onward.  On the template
    [PRE\begin{document}OLD\end{document}POST] with body [NEW] the result
    begins with [PRE\begin{document}], holds [NEW], ends with
    [\end{document}POST] and does not hold [OLD]. *)
Theorem replace_entire_document_content_splices :
  (forall template body : string,
      occurs begin_document template -> occurs end_document template ->
      exists pre front post,
        first_occurrence begin_document template pre /\
        first_occurrence end_document template front /\
        template = front ++ post /\
        _replace_entire_document_content template body =
        (pre ++ begin_document) ++ Py.nl ++ Py.nl ++ body ++
        Py.nl ++ Py.nl ++ post) /\
  (let result :=
     _replace_entire_document_content
       "PRE\begin{document}OLD\end{document}POST" "NEW" in
   (exists rest, result = "PRE\begin{document}" ++ rest) /\
   occurs "NEW" result /\
   (exists front, result = front ++ "\end{document}POST") /\
   ~ occurs "OLD" result).
Proof.
  split; [exact replace_with_markers|].
  cbv zeta. repeat split.
  - eexists. vm_compute. reflexivity.
  - exists ("PRE\begin{document}" ++ Py.nl ++ Py.nl), (Py.nl ++ Py.nl ++ "\end{document}POST").
    vm_compute. reflexivity.
  - exists ("PRE\begin{document}" ++ Py.nl ++ Py.nl ++ "NEW" ++ Py.nl ++ Py.nl).
    vm_compute. reflexivity.
  - apply find_absent. vm_compute. reflexivity.
Qed.

Lemma replace_entire_document_content_splices_witness :
  exists pre front post,
    first_occurrence begin_document
      "PRE\begin{document}OLD\end{document}POST" pre /\
    first_occurrence end_document
      "PRE\begin{document}OLD\end{document}POST" front /\
    "PRE\begin{document}OLD\end{document}POST" = front ++ post /\
    _replace_entire_document_content
      "PRE\begin{document}OLD\end{document}POST" "NEW" =
    (pre ++ begin_document) ++ Py.nl ++ Py.nl ++ "NEW" ++
    Py.nl ++ Py.nl ++ post.
Proof.
  apply (proj1 replace_entire_document_content_splices
           "PRE\begin{document}OLD\end{document}POST" "NEW").
  - exists "PRE", "OLD\end{document}POST". reflexivity.
  - exists "PRE\begin{document}OLD", "POST". reflexivity.
Defined.

(** C2.  When one of the two markers does not occur in the template,
    assembly returns the template itself. *)
Theorem replace_entire_document_content_no_marker :
  forall template body : string,
    ~ occurs begin_document template \/ ~ occurs end_document template ->
    _replace_entire_document_content template body = template.
Proof. exact replace_without_marker. Qed.

Lemma replace_entire_document_content_no_marker_witness :
  _replace_entire_document_content "\begin{document} only" "NEW" =
  "\begin{document} only".
Proof.
  apply replace_entire_document_content_no_marker.
  right. apply find_absent. vm_compute. reflexivity.
Defined.

(** ** Port extraction *)

Section Keywords.

Lemma occurs_prefix (sub s : string) : prefix sub s = true -> occurs sub s.
Proof. intros H. exists "". now apply occurs_at_nil. Qed.

Lemma occurs_tail (sub : string) (c : ascii) (s : string) :
  occurs sub s -> occurs sub (String c s).
Proof. intros [p H]. exists (String c p). now apply occurs_at_cons. Qed.

(** A pattern that begins with a keyword matches only where the keyword
    stands. *)
Lemma match_here_keyword (kw : string) (r : Re.regex) (s : string) :
  prefix kw s = false -> Re.match_here (Re.Seq (Re.Lit kw) r) s = None.
Proof. intros H. unfold Re.match_here. simpl. now rewrite H. Qed.

Lemma scan_absent (kw : string) (r : Re.regex) (s : string) (skip : nat) :
  ~ occurs kw s -> Re.scan (Re.Seq (Re.Lit kw) r) s skip = [].
Proof.
  revert skip; induction s as [|c s IH]; intros skip Hno; [reflexivity|].
  assert (Hs : ~ occurs kw s) by (intros H; apply Hno; now apply occurs_tail).
  cbn [Re.scan]. destruct skip as [|n]; [|now apply IH].
  rewrite match_here_keyword; [now apply IH|].
  destruct (prefix kw (String c s)) eqn:Hp; [|reflexivity].
  exfalso; apply Hno; now apply occurs_prefix.
Qed.

End Keywords.

(** C3.  Port extraction on
    [input wire [3:0] foo, output reg bar, parameter BAZ=4] yields the
    inputs [foo], the outputs [bar] and the parameters [(BAZ, 4)]. *)
Theorem extract_ports_example :
  _extract_ports "input wire [3:0] foo, output reg bar, parameter BAZ=4" =
  {| inputs := ["foo"]; outputs := ["bar"]; parameters := [("BAZ", "4")] |}.
Proof. vm_compute. reflexivity. Qed.

(** C4.  Port extraction is a total function into the three lists, and
    a text in which none of the keywords [input], [output] and
    [parameter] occurs yields three empty lists. *)
Theorem extract_ports_total_and_empty_without_keywords :
  (forall code : string,
      exists (i o : list string) (p : list (string * string)),
        _extract_ports code =
        {| inputs := i; outputs := o; parameters := p |}) /\
  (forall code : string,
      ~ occurs "input" code -> ~ occurs "output" code ->
      ~ occurs "parameter" code ->
      _extract_ports code =
      {| inputs := []; outputs := []; parameters := [] |}).
Proof.
  split.
  - intros code. now exists (inputs (_extract_ports code)),
      (outputs (_extract_ports code)), (parameters (_extract_ports code)).
  - intros code Hi Ho Hp.
    unfold _extract_ports, Re.findall1, Re.findall2,
      port_pattern, parameter_pattern.
    now rewrite !scan_absent.
Qed.

Lemma extract_ports_total_and_empty_without_keywords_witness :
  _extract_ports "assign y = a & b;" =
  {| inputs := []; outputs := []; parameters := [] |}.
Proof.
  apply (proj2 extract_ports_total_and_empty_without_keywords);
    apply find_absent; vm_compute; reflexivity.
Defined.

(** ** The module-name pattern *)

Section ModuleName.

Lemma space_not_word (c : ascii) :
  Re.is_space c = true -> Re.is_word c = false.
Proof.
  destruct c as [[] [] [] [] [] [] [] []]; vm_compute;
    intros H; try reflexivity; discriminate H.
Qed.

Lemma word_not_space (c : ascii) :
  Re.is_word c = true -> Re.is_space c = false.
Proof.
  intros H. destruct (Re.is_space c) eqn:E; [|reflexivity].
  apply space_not_word in E. congruence.
Qed.

Lemma take_drop_while (cs : Re.charset) (s : string) :
  take_while cs s ++ drop_while cs s = s.
Proof.
  induction s as [|c s IH]; simpl; [reflexivity|].
  destruct (cs c); simpl; [now rewrite IH | reflexivity].
Qed.

Lemma all_in_take_while (cs : Re.charset) (s : string) :
  all_in cs (take_while cs s) = true.
Proof.
  induction s as [|c s IH]; simpl; [reflexivity|].
  destruct (cs c) eqn:E; simpl; [now rewrite E | reflexivity].
Qed.

Lemma starts_outside_drop_while (cs : Re.charset) (s : string) :
  starts_outside cs (drop_while cs s).
Proof.
  induction s as [|c s IH]; simpl; [exact I|].
  destruct (cs c) eqn:E; [exact IH | exact E].
Qed.

Lemma while_append (cs : Re.charset) (a b : string) :
  all_in cs a = true -> starts_outside cs b ->
  take_while cs (a ++ b) = a /\ drop_while cs (a ++ b) = b.
Proof.
  induction a as [|c a IH]; simpl; intros Ha Hb.
  - destruct b as [|d b]; simpl in *; [now split | now rewrite Hb].
  - apply andb_prop in Ha as [Hc Ha]. rewrite Hc.
    destruct (IH Ha Hb) as [-> ->]. now split.
Qed.

Lemma take_length_drop_while (cs : Re.charset) (s : string) :
  Py.take (length s - length (drop_while cs s)) s = take_while cs s.
Proof.
  rewrite <- (take_drop_while cs s) at 1 3.
  rewrite length_append, Nat.add_sub. apply take_append.
Qed.

(** A greedy repetition gives back nothing when the continuation
    refuses every text that begins inside the class. *)
Lemma star_refusing {R : Type} (cs : Re.charset) (s : string)
    (k : string -> option R) :
  (forall c t, cs c = true -> k (String c t) = None) ->
  Re.star cs s k = k (drop_while cs s).
Proof.
  intros Hk. induction s as [|c s IH]; simpl; [reflexivity|].
  destruct (cs c) eqn:E; [|reflexivity].
  rewrite IH. destruct (k (drop_while cs s)); [reflexivity | now apply Hk].
Qed.

(** A greedy repetition keeps the longest run when the continuation
    accepts every text. *)
Lemma star_accepting {R : Type} (cs : Re.charset) (s : string)
    (k : string -> option R) :
  (forall t, k t <> None) ->
  Re.star cs s k = k (drop_while cs s).
Proof.
  intros Hk. induction s as [|c s IH]; simpl; [reflexivity|].
  destruct (cs c) eqn:E; [|reflexivity].
  rewrite IH. destruct (k (drop_while cs s)) eqn:K; [reflexivity|].
  now apply Hk in K.
Qed.

Lemma length_drop_while (cs : Re.charset) (s : string) :
  length (drop_while cs s) <= length s.
Proof.
  induction s as [|c s IH]; simpl; [lia|]. destruct (cs c); simpl; lia.
Qed.

Lemma match_here_module (s : string) :
  Re.match_here module_pattern s = module_match_here s.
Proof.
  unfold Re.match_here, module_pattern, module_match_here.
  cbn [Re.run]. destruct (prefix "module" s); [|reflexivity].
  change (length "module") with 6.
  destruct (Py.drop 6 s) as [|c s1]; [reflexivity|].
  destruct (Re.is_space c); [|reflexivity].
  rewrite star_refusing.
  - destruct (drop_while Re.is_space s1) as [|d t]; [reflexivity|].
    destruct (Re.is_word d); [|reflexivity].
    rewrite star_accepting by discriminate.
    do 3 f_equal.
    pose proof (length_drop_while Re.is_word t) as Hle.
    cbn [length]. rewrite Nat.sub_succ_l by exact Hle.
    cbn [Py.take]. now rewrite take_length_drop_while.
  - intros c' t Hc. now rewrite (space_not_word _ Hc).
Qed.

Lemma module_match_here_declared (s : string) (m : Re.Match) :
  module_match_here s = Some m -> declared_at s "" (Re.group_text m 1).
Proof.
  unfold module_match_here. destruct (prefix "module" s) eqn:Hp; [|discriminate].
  apply prefix_iff in Hp as [r ->].
  change 6 with (length "module"). rewrite drop_append.
  destruct r as [|c s1]; [discriminate|].
  destruct (Re.is_space c) eqn:Hc; [|discriminate].
  destruct (drop_while Re.is_space s1) as [|d t] eqn:Hd; [discriminate|].
  destruct (Re.is_word d) eqn:Hw; [|discriminate].
  intros [= <-]. cbn.
  exists (String c (take_while Re.is_space s1)), (drop_while Re.is_word t).
  repeat split.
  - cbn. do 7 f_equal. rewrite take_drop_while, <- Hd.
    now rewrite take_drop_while.
  - discriminate.
  - cbn [all_in]. now rewrite Hc, all_in_take_while.
  - discriminate.
  - cbn [all_in]. now rewrite Hw, all_in_take_while.
  - apply starts_outside_drop_while.
Qed.

Lemma declared_module_match_here (s n : string) :
  declared_at s "" n ->
  exists m, module_match_here s = Some m /\ Re.group_text m 1 = n.
Proof.
  intros (ws & rest & -> & Hws & Hsp & Hn & Hwd & Hrest).
  destruct ws as [|c ws]; [congruence|]. destruct n as [|d n]; [congruence|].
  cbn [all_in] in Hsp, Hwd. apply andb_prop in Hsp as [Hc Hsp].
  apply andb_prop in Hwd as [Hd Hwd].
  unfold module_match_here.
  assert (Hp : prefix "module" ("" ++ "module" ++ String c ws ++ String d n ++ rest)
               = true) by (apply prefix_iff; now eexists).
  rewrite Hp. cbn [append Py.drop]. rewrite Hc.
  destruct (while_append Re.is_space ws (String d (n ++ rest)) Hsp) as [_ Hdrop];
    [cbn [starts_outside]; now apply word_not_space|].
  rewrite Hdrop, Hd.
  destruct (while_append Re.is_word n rest Hwd Hrest) as [Htake _].
  eexists; split; [reflexivity|]. cbn. now rewrite Htake.
Qed.

Lemma declared_at_cons (c d : ascii) (s p n : string) :
  declared_at (String c s) (String d p) n <-> c = d /\ declared_at s p n.
Proof.
  unfold declared_at; split.
  - intros (ws & rest & H & Hr). cbn in H. injection H as -> ->.
    split; [reflexivity|]. now exists ws, rest.
  - intros [-> (ws & rest & -> & Hr)]. now exists ws, rest.
Qed.

Lemma search_unfold (r : Re.regex) (s : string) :
  Re.search r s =
  match Re.match_here r s with
  | Some m => Some m
  | None =>
      match s with
      | EmptyString => None
      | String _ s' => Re.search r s'
      end
  end.
Proof. destruct s; reflexivity. Qed.

(** [re.search] with the module-name pattern finds the first place
    where the keyword is followed by white space and an identifier, and
    captures that identifier; it finds nothing when there is no such
    place. *)
Lemma search_module_spec (code : string) :
  match Re.search module_pattern code with
  | Some m => first_declared code (Re.group_text m 1)
  | None => forall pre n, ~ declared_at code pre n
  end.
Proof.
  induction code as [|c code IH]; rewrite search_unfold, match_here_module;
    destruct (module_match_here _) as [m|] eqn:Hm.
  - exists "". split; [now apply module_match_here_declared | cbn; lia].
  - intros [|d pre] n H.
    + apply declared_module_match_here in H as (m & H & _). congruence.
    + destruct H as (ws & rest & H & _). discriminate H.
  - exists "". split; [now apply module_match_here_declared | cbn; lia].
  - destruct (Re.search module_pattern code) as [m|].
    + destruct IH as (pre & Hd & Hmin). exists (String c pre). split.
      * now apply declared_at_cons.
      * intros [|d pre'] n' H.
        -- apply declared_module_match_here in H as (m' & H & _). congruence.
        -- apply declared_at_cons in H as [_ H]. apply Hmin in H. cbn; lia.
    + intros [|d pre] n H.
      * apply declared_module_match_here in H as (m' & H & _). congruence.
      * apply declared_at_cons in H as [_ H]. now apply IH in H.
Qed.

End ModuleName.

(** ** Loading *)

Section Loading.

Lemma add_modules_nil (st : Ctx) : add_modules st [] = st.
Proof.
  destruct st as [w [cfg ms]]. unfold add_modules; cbn.
  now rewrite app_nil_r.
Qed.

Lemma add_modules_app (st : Ctx) (a b : list VerilogModule) :
  add_modules (add_modules st a) b = add_modules st (a ++ b).
Proof. unfold add_modules; cbn. now rewrite app_assoc. Qed.

Lemma read_file_readable (path : string) (st : Ctx) :
  read_file path st =
  match readable_text (env st) path with
  | Some text => (Return text, st)
  | None =>
      match file_text (env st) path with
      | inr e => (Raise e, st)
      | inl text => (Return text, st)
      end
  end.
Proof.
  unfold read_file, readable_text.
  destruct (journal_lookup _ _); [reflexivity|].
  now destruct (file_text _ _).
Qed.

Lemma readable_text_none (w : World) (path : string) :
  readable_text w path = None -> exists e, file_text w path = inr e.
Proof.
  unfold readable_text. destruct (journal_lookup _ _); [discriminate|].
  destruct (file_text w path) as [t|e]; [discriminate | now exists e].
Qed.

(** One file: nothing is raised, the world is left as it was, and at
    most one record is appended. *)
Lemma parse_verilog_file_spec (path : string) (st : Ctx) :
  exists records,
    _parse_verilog_file path st = (Return tt, add_modules st records) /\
    match readable_text (env st) path with
    | Some text =>
        if has_module (path, text)
        then exists r, records = [r] /\ loaded_from (path, text) r
        else records = []
    | None => records = []
    end.
Proof.
  unfold _parse_verilog_file, try_except, bind. rewrite read_file_readable.
  destruct (readable_text (env st) path) as [text|] eqn:Hr.
  - unfold has_module; cbn [snd].
    pose proof (search_module_spec text) as Hs.
    destruct (Re.search module_pattern text) as [m|].
    + eexists; split; [reflexivity|]. eexists; split; [reflexivity|].
      repeat split. exact Hs.
    + exists []. split; [now rewrite add_modules_nil | reflexivity].
  - apply readable_text_none in Hr as [e ->].
    exists []. split; [now rewrite add_modules_nil | reflexivity].
Qed.

Lemma for_each_parse_spec (files : list string) (st : Ctx) :
  exists records,
    for_each files _parse_verilog_file st = (Return tt, add_modules st records) /\
    Forall2 loaded_from
      (filter has_module (readable_files (env st) files)) records.
Proof.
  revert st; induction files as [|path files IH]; intros st.
  - exists []. split; [cbn; unfold ret; now rewrite add_modules_nil | constructor].
  - destruct (parse_verilog_file_spec path st) as (r1 & Hrun & Hr1).
    destruct (IH (add_modules st r1)) as (r2 & Hrest & Hr2).
    exists (r1 ++ r2)%list. split.
    + cbn [for_each]. unfold bind at 1. rewrite Hrun, Hrest.
      now rewrite add_modules_app.
    + cbn [readable_files]. cbn [add_modules env] in Hr2.
      destruct (readable_text (env st) path) as [text|].
      * cbn [filter]. destruct (has_module (path, text)).
        -- destruct Hr1 as (r & -> & Hl). now constructor.
        -- now subst r1.
      * now subst r1.
Qed.

Lemma length_filter_split {A : Type} (f : A -> bool) (l : list A) :
  List.length (filter f l) =
  List.length l - List.length (filter (fun x => negb (f x)) l).
Proof.
  induction l as [|x l IH]; [reflexivity|]. cbn [filter].
  pose proof (filter_length_le (fun x => negb (f x)) l) as Hle.
  destruct (f x); cbn [negb List.length]; lia.
Qed.

End Loading.

(** C5.  Let the enumeration of a directory yield [N] readable files, of
    which [M] hold no match of the module-name pattern.  Loading raises
    nothing and appends [N - M] records, in the order of the
    enumeration, one for each readable file that holds a match: its name
    is the identifier captured at the first place where the keyword
    [module] is followed by white space and an identifier, its filename
    the base name of the file, its text the contents of the file, its
    ports the extraction from that text, and its analysis empty. *)
Theorem load_verilog_files_appends_records :
  forall (st : Ctx) (input_dir : option string),
    let directory :=
      match input_dir with
      | Some d => d
      | None => input_directory (config (self st))
      end in
    let enumeration :=
      verilog_files (env st) directory (file_extensions (config (self st))) in
    let readable := readable_files (env st) enumeration in
    let N := List.length readable in
    let M := List.length (filter (fun f => negb (has_module f)) readable) in
    M <= N /\
    exists records,
      load_verilog_files input_dir st = (Return tt, add_modules st records) /\
      List.length records = N - M /\
      Forall2 loaded_from (filter has_module readable) records.
Proof.
  intros st input_dir directory enumeration readable N M.
  split; [apply filter_length_le|].
  destruct (for_each_parse_spec enumeration st) as (records & Hrun & Hrec).
  exists records. split; [|split].
  - unfold load_verilog_files, bind, get_self, get_env. exact Hrun.
  - rewrite <- (Forall2_length Hrec). apply length_filter_split.
  - exact Hrec.
Qed.

(** ** Analysis requests *)

Section Analysis.

Lemma set_calls_same (w : World) : set_calls w (calls w) = w.
Proof. now destruct w. Qed.

Lemma after_requests_zero (st : Ctx) :
  after_requests st 0 (modules (self st)) = st.
Proof.
  destruct st as [w [cfg ms]]. unfold after_requests; cbn.
  now rewrite Nat.add_0_r, set_calls_same.
Qed.

(** One request: the reply, or the placeholder when the request
    raises; nothing is raised to the caller. *)
Lemma analyze_single_module_spec (module : VerilogModule) (st : Ctx) :
  _analyze_single_module module st =
  (Return (analysis_of (model (env st) (calls (env st))) module),
   after_requests st 1 (modules (self st))).
Proof.
  unfold _analyze_single_module, try_except, bind, chat, after_requests.
  destruct st as [w [cfg ms]]; cbn.
  rewrite Nat.add_1_r. now destruct (model w (calls w)).
Qed.

Lemma analyze_each_spec (todo done : list VerilogModule) (st : Ctx) :
  modules (self st) = (done ++ todo)%list ->
  analyze_each done todo st =
  (Return tt,
   after_requests st (List.length todo)
     (done ++ analysed (model (env st)) (calls (env st)) todo)).
Proof.
  revert done st; induction todo as [|m todo IH]; intros done st Hms.
  - cbn. unfold ret. rewrite <- Hms. now rewrite after_requests_zero.
  - cbn [analyze_each]. unfold bind at 1. rewrite analyze_single_module_spec.
    unfold bind at 1. cbn [set_modules].
    rewrite IH by (cbn; now rewrite <- app_assoc).
    f_equal. destruct st as [w [cfg ms]]. unfold after_requests; cbn.
    rewrite <- app_assoc. cbn [app].
    replace (calls w + 1) with (S (calls w)) by lia.
    replace (S (calls w) + List.length todo)
      with (calls w + S (List.length todo)) by lia.
    reflexivity.
Qed.

Lemma analyze_modules_spec (st : Ctx) :
  analyze_modules st =
  (Return tt,
   after_requests st (List.length (modules (self st)))
     (analysed (model (env st)) (calls (env st)) (modules (self st)))).
Proof.
  unfold analyze_modules, bind, get_self. now rewrite analyze_each_spec.
Qed.

Lemma nth_error_analysed (answers : nat -> reply) (ms : list VerilogModule) :
  forall (n k : nat) (m : VerilogModule),
    nth_error ms k = Some m ->
    nth_error (analysed answers n ms) k =
    Some (set_analysis m (analysis_of (answers (n + k)) m)).
Proof.
  induction ms as [|m0 ms IH]; intros n [|k] m H; try discriminate.
  - injection H as ->. cbn. now rewrite Nat.add_0_r.
  - cbn in H |- *. rewrite (IH (S n) k m H). do 4 f_equal. lia.
Qed.

End Analysis.

(** ** The pipeline *)

Section Pipeline.

Lemma load_verilog_files_spec (input_dir : option string) (st : Ctx) :
  exists records,
    load_verilog_files input_dir st = (Return tt, add_modules st records) /\
    Forall2 loaded_from
      (filter has_module
         (readable_files (env st)
            (verilog_files (env st)
               match input_dir with
               | Some d => d
               | None => input_directory (config (self st))
               end
               (file_extensions (config (self st)))))) records.
Proof.
  unfold load_verilog_files, bind, get_self, get_env.
  destruct input_dir; apply for_each_parse_spec.
Qed.

(** What the document generator takes as the body. *)
Lemma generate_complete_document_spec (st : Ctx) :
  _generate_complete_document st =
  (Return match model (env st) (calls (env st)) with
          | Reply content => Str.strip content
          | Failure _ => _generate_fallback_document
          end,
   after_requests st 1 (modules (self st))).
Proof.
  unfold _generate_complete_document, try_except, bind, chat, after_requests.
  destruct st as [w [cfg ms]]; cbn.
  rewrite Nat.add_1_r. now destruct (model w (calls w)).
Qed.

(** With a readable template and a writable output the generator
    writes the spliced document. *)
Lemma generate_latex_document_writes
    (template_path : string) (output_path : option string)
    (st : Ctx) (template : string) :
  readable_text (env st) template_path = Some template ->
  write_error (env st)
    match output_path with
    | Some p => p
    | None => latex_filename (config (self st))
    end = None ->
  exists body final,
    generate_latex_document template_path output_path st = (Return tt, final) /\
    written (env final) =
    (match output_path with
     | Some p => p
     | None => latex_filename (config (self st))
     end,
     _replace_entire_document_content template body) :: written (env st).
Proof.
  intros Hread Hwrite.
  unfold generate_latex_document, bind, get_self.
  rewrite read_file_readable, Hread, generate_complete_document_spec.
  unfold write_file. cbn [env after_requests set_calls write_error self config].
  destruct output_path as [p|]; rewrite Hwrite; eexists; eexists;
    (split; [reflexivity|reflexivity]).
Qed.

Lemma run_complete_analysis_spec
    (input_dir : option string) (template_path : string)
    (output_path : option string) (st : Ctx) :
  run_complete_analysis input_dir template_path output_path st =
  let loaded := snd (load_verilog_files input_dir st) in
  match modules (self loaded) with
  | [] => (Return tt, loaded)
  | _ :: _ =>
      generate_latex_document template_path output_path
        (snd (analyze_modules loaded))
  end.
Proof.
  destruct (load_verilog_files_spec input_dir st) as (records & Hload & _).
  unfold run_complete_analysis, bind at 1. rewrite Hload. cbn [snd].
  unfold bind at 1, get_self.
  destruct (modules (self (add_modules st records))); [reflexivity|].
  unfold bind. now rewrite analyze_modules_spec.
Qed.

Lemma occurs_middle (a b c : string) : occurs b (a ++ b ++ c).
Proof. now exists a, c. Qed.

Lemma occurs_end (a b : string) : occurs b (a ++ b).
Proof. exists a, "". now rewrite append_nil_r. Qed.

End Pipeline.

(** C6.  When the request for the analysis of a module raises, the
    single-module analysis returns a placeholder, which is not empty and
    holds the name of the module and the reason; and once the collection
    is not empty after loading, the pipeline analyses every module
    without raising, gives the placeholder to each module whose request
    raised, and goes on to the document generator, which writes the
    spliced document when the template can be read and the output
    written. *)
Theorem analysis_failure_does_not_stop_the_pipeline :
  (forall (module : VerilogModule) (st : Ctx) (reason : string),
      model (env st) (calls (env st)) = Failure reason ->
      exists text st',
        _analyze_single_module module st = (Return text, st') /\
        text = "Analysis failed for module " ++ name module ++ ": " ++ reason /\
        text <> "" /\ occurs (name module) text /\ occurs reason text) /\
  (forall (st : Ctx) (input_dir : option string) (template_path : string)
          (output_path : option string),
      let loaded := snd (load_verilog_files input_dir st) in
      modules (self loaded) <> [] ->
      exists analysed_st,
        analyze_modules loaded = (Return tt, analysed_st) /\
        run_complete_analysis input_dir template_path output_path st =
        generate_latex_document template_path output_path analysed_st /\
        (forall k module reason,
            nth_error (modules (self loaded)) k = Some module ->
            model (env loaded) (calls (env loaded) + k) = Failure reason ->
            nth_error (modules (self analysed_st)) k =
            Some (set_analysis module
                    ("Analysis failed for module " ++ name module ++ ": " ++
                     reason))) /\
        (forall template,
            readable_text (env analysed_st) template_path = Some template ->
            write_error (env analysed_st)
              match output_path with
              | Some p => p
              | None => latex_filename (config (self analysed_st))
              end = None ->
            exists body final,
              generate_latex_document template_path output_path analysed_st =
              (Return tt, final) /\
              written (env final) =
              (match output_path with
               | Some p => p
               | None => latex_filename (config (self analysed_st))
               end,
               _replace_entire_document_content template body)
              :: written (env analysed_st))).
Proof.
  split.
  - intros module st reason Hfail. eexists; eexists.
    split; [apply analyze_single_module_spec|]. rewrite Hfail. cbn [analysis_of].
    repeat split.
    + discriminate.
    + apply occurs_middle.
    + rewrite <- append_assoc, <- append_assoc. apply occurs_end.
  - intros st input_dir template_path output_path loaded Hne.
    eexists. split; [apply analyze_modules_spec|]. split; [|split].
    + rewrite run_complete_analysis_spec. cbv zeta. fold loaded.
      rewrite analyze_modules_spec. cbn [snd].
      destruct (modules (self loaded)); [congruence | reflexivity].
    + intros k module reason Hk Hfail. cbn [after_requests self modules].
      rewrite (nth_error_analysed _ _ _ _ _ Hk), Hfail. reflexivity.
    + intros template. apply generate_latex_document_writes.
Qed.

Lemma analysis_failure_does_not_stop_the_pipeline_witness :
  (exists text st',
      _analyze_single_module sample_module sample_loaded = (Return text, st') /\
      text = "Analysis failed for module counter: Connection error." /\
      text <> "" /\ occurs "counter" text /\ occurs "Connection error." text) /\
  (exists analysed_st,
      analyze_modules (snd (load_verilog_files (Some "rtl") sample_loaded)) =
      (Return tt, analysed_st) /\
      run_complete_analysis (Some "rtl") "template.tex" (Some "out.tex")
        sample_loaded =
      generate_latex_document "template.tex" (Some "out.tex") analysed_st).
Proof.
  split.
  - apply (proj1 analysis_failure_does_not_stop_the_pipeline
             sample_module sample_loaded "Connection error.").
    reflexivity.
  - destruct (proj2 analysis_failure_does_not_stop_the_pipeline
                sample_loaded (Some "rtl") "template.tex" (Some "out.tex"))
      as (analysed_st & Hanalysed & Hrun & _).
    + vm_compute. discriminate.
    + now exists analysed_st.
Defined.

Section EmptyCollection.

(** The collection is empty after loading exactly when it was empty
    before and no readable file of the enumeration holds a module. *)
Lemma empty_after_loading (st : Ctx) (input_dir : option string) :
  modules (self (snd (load_verilog_files input_dir st))) = [] <->
  modules (self st) = [] /\
  filter has_module
    (readable_files (env st)
       (verilog_files (env st)
          match input_dir with
          | Some d => d
          | None => input_directory (config (self st))
          end
          (file_extensions (config (self st))))) = [].
Proof.
  destruct (load_verilog_files_spec input_dir st) as (records & -> & Hrec).
  cbn [snd add_modules self modules]. split.
  - intros H. apply app_eq_nil in H as [H1 H2]. subst records.
    split; [exact H1|]. now inversion Hrec.
  - intros [H1 H2]. rewrite H2 in Hrec. inversion Hrec. now rewrite H1.
Qed.

Lemma load_verilog_files_keeps_world (st : Ctx) (input_dir : option string) :
  fst (load_verilog_files input_dir st) = Return tt /\
  env (snd (load_verilog_files input_dir st)) = env st.
Proof.
  destruct (load_verilog_files_spec input_dir st) as (records & -> & _).
  now split.
Qed.

End EmptyCollection.

(** C7, as the code has it.  When the module collection is empty once
    loading is done, which is when it was empty before the run and no
    module is loaded from the input directory, the orchestrator returns
    without raising, asks the external model nothing and writes no
    file. *)
Theorem run_complete_analysis_stops_on_empty_collection :
  forall (st : Ctx) (input_dir : option string) (template_path : string)
         (output_path : option string),
    (modules (self st) = [] /\
     filter has_module
       (readable_files (env st)
          (verilog_files (env st)
             match input_dir with
             | Some d => d
             | None => input_directory (config (self st))
             end
             (file_extensions (config (self st))))) = []) ->
    exists final,
      run_complete_analysis input_dir template_path output_path st =
      (Return tt, final) /\
      modules (self final) = [] /\
      env final = env st.
Proof.
  intros st input_dir template_path output_path Hempty.
  apply empty_after_loading in Hempty.
  destruct (load_verilog_files_keeps_world st input_dir) as [_ Henv].
  exists (snd (load_verilog_files input_dir st)).
  rewrite run_complete_analysis_spec. cbv zeta. rewrite Hempty. now repeat split.
Qed.

Lemma run_complete_analysis_stops_on_empty_collection_witness :
  exists final,
    run_complete_analysis (Some "rtl") "template.tex" (Some "out.tex")
      {| env := sample_world;
         self := {| config := sample_config; modules := [] |} |} =
    (Return tt, final) /\
    modules (self final) = [] /\
    env final = sample_world.
Proof.
  apply (run_complete_analysis_stops_on_empty_collection
           {| env := sample_world;
              self := {| config := sample_config; modules := [] |} |}
           (Some "rtl") "template.tex" (Some "out.tex")).
  split; reflexivity.
Defined.

(** C7 as stated fails on an analyzer that holds a module loaded
    earlier: the input directory yields no file and no module is
    loaded from it, yet the run goes on and writes the output file. *)
Lemma run_complete_analysis_writes_with_loaded_collection :
  verilog_files sample_world "rtl" (file_extensions sample_config) = [] /\
  modules (self (snd (load_verilog_files (Some "rtl") sample_loaded))) =
  modules (self sample_loaded) /\
  fst (run_complete_analysis (Some "rtl") "template.tex" (Some "out.tex")
         sample_loaded) = Return tt /\
  written (env (snd (run_complete_analysis (Some "rtl") "template.tex"
                       (Some "out.tex") sample_loaded))) =
  [("out.tex",
    _replace_entire_document_content
      "PRE\begin{document}OLD\end{document}POST"
      _generate_fallback_document)] /\
  written (env sample_loaded) = [].
Proof. vm_compute. repeat split. Qed.

(** ** The remote tool front end *)

Section FrontEnd.

Lemma single_reply_text (t : string) : single_text (reply_text t).
Proof. intros st. cbn. now exists t. Qed.

Lemma single_bind {S A : Type} (c : M S A) (f : A -> M S (list TextContent.t)) :
  (forall a, single_text (f a)) -> single_text (bind c f).
Proof.
  intros Hf st. unfold bind. destruct (c st) as [[a|e] st']; [apply Hf | exact I].
Qed.

Ltac single :=
  repeat first
    [ apply single_reply_text
    | apply single_bind; intros
    | match goal with
      | |- single_text (if ?b then _ else _) => destruct b
      | |- single_text (match ?x with _ => _ end) => destruct x
      end ].

Lemma single_call_tool (name : string) (args : arguments) :
  single_text (call_tool name args).
Proof.
  unfold call_tool, call_load_verilog_files, call_get_loaded_modules,
    call_parse_verilog_file, call_extract_ports, call_analyze_single_module,
    call_analyze_all_modules, call_generate_latex_document,
    call_run_complete_analysis, call_get_module_details, module_not_found.
  single.
Qed.

Lemma single_on_instance (c : M Ctx (list TextContent.t)) :
  single_text c -> single_text (on_instance c).
Proof.
  intros Hc st. unfold on_instance.
  destruct (analyzer_instance st) as [a|]; [|exact I].
  specialize (Hc {| env := host st; self := a |}).
  now destruct (c _) as [r ctx].
Qed.

(** Every call is answered by one text payload: what a branch raises
    is turned into a text by the handler. *)
Lemma handle_call_tool_single (name : string) (args : arguments) (st : Server) :
  exists t, fst (handle_call_tool name args st) = Return [text_content t].
Proof.
  unfold handle_call_tool, try_except.
  destruct (name =? "initialize_analyzer").
  - unfold bind, new_analyzer.
    destruct (construct _ _); cbn; eexists; reflexivity.
  - pose proof (single_bind ensure_analyzer
                  (fun _ => on_instance (call_tool name args))
                  (fun _ => single_on_instance _ (single_call_tool name args))
                  st) as H.
    destruct (bind _ _ st) as [[l|e] st']; cbn in *.
    + destruct H as [t ->]. now exists t.
    + eexists; reflexivity.
Qed.

Lemma outside_table (name : string) :
  ~ In name tool_names ->
  (name =? "initialize_analyzer") = false /\
  forall args, call_tool name args = reply_text ("Unknown tool: " ++ name).
Proof.
  intros H. unfold tool_names, handle_list_tools in H. cbn in H.
  unfold call_tool.
  repeat match goal with
         | |- context [name =? ?lit] =>
             destruct (String.eqb_spec name lit) as [->|_]; [exfalso; tauto|]
         end.
  now split.
Qed.

Lemma misses_required_cases (name : string) (args : arguments) :
  misses_required name args ->
  exists r,
    get args r = None /\
    ((name = "load_verilog_files" /\ r = "input_dir") \/
     (name = "parse_verilog_file" /\ r = "file_path") \/
     (name = "extract_ports" /\ r = "verilog_code") \/
     (name = "analyze_single_module" /\ r = "module_name") \/
     (name = "run_complete_analysis" /\ r = "input_dir") \/
     (name = "get_module_details" /\ r = "module_name")).
Proof.
  intros (tool & r & Hin & <- & Hr & Hget). exists r. split; [exact Hget|].
  unfold handle_list_tools in Hin. cbn in Hin.
  repeat (destruct Hin as [<-|Hin]; cbn in Hr;
          [destruct Hr as [<-|[]] || destruct Hr; tauto|]).
  destruct Hin.
Qed.

(** A call that leaves out its required argument raises [KeyError]
    before its branch does anything. *)
Lemma call_tool_missing (name : string) (args : arguments) :
  misses_required name args ->
  (name =? "initialize_analyzer") = false /\
  exists r, get args r = None /\
    forall ctx, call_tool name args ctx = (Raise ("'" ++ r ++ "'"), ctx).
Proof.
  intros H. apply misses_required_cases in H as (r & Hget & Hcase).
  destruct Hcase as [[-> ->]|[[-> ->]|[[-> ->]|[[-> ->]|[[-> ->]|[-> ->]]]]]];
    (split; [reflexivity|]); eexists; (split; [exact Hget|]); intros ctx;
    cbn [call_tool String.eqb Ascii.eqb Bool.eqb];
    unfold call_load_verilog_files, call_parse_verilog_file,
      call_extract_ports, call_analyze_single_module,
      call_run_complete_analysis, call_get_module_details, bind, subscript;
    rewrite Hget; reflexivity.
Qed.

Lemma ensure_analyzer_some (st : Server) (a : VerilogAnalyzer) :
  analyzer_instance st = Some a -> ensure_analyzer st = (Return tt, st).
Proof. intros H. unfold ensure_analyzer. now rewrite H. Qed.

Lemma ensure_analyzer_cases (st st' : Server) (r : result unit) :
  ensure_analyzer st = (r, st') ->
  (r = Return tt /\ exists a, analyzer_instance st' = Some a) \/
  (exists e, r = Raise e /\ st' = st).
Proof.
  unfold ensure_analyzer, new_analyzer.
  destruct (analyzer_instance st) as [a|] eqn:Ha.
  - intros [= <- <-]. left. split; [reflexivity | now exists a].
  - destruct (construct (host st) "config.yaml") as [cfg|e]; intros [= <- <-].
    + left. split; [reflexivity | now eexists].
    + right. now exists e.
Qed.

Lemma on_instance_unchanged {A : Type} (c : M Ctx A) (r : result A)
    (st : Server) (a : VerilogAnalyzer) :
  (forall ctx, c ctx = (r, ctx)) ->
  analyzer_instance st = Some a ->
  on_instance c st = (r, st).
Proof.
  intros Hc Ha. unfold on_instance. rewrite Ha, Hc. cbn.
  destruct st as [w i]. cbn in *. now subst i.
Qed.

(** A call whose branch does nothing but answer or raise: the handler
    answers in text, and the state is the one that the lazy
    initialisation leaves. *)
Lemma handle_call_tool_inert (name : string) (args : arguments)
    (r : result (list TextContent.t)) (st : Server) :
  (name =? "initialize_analyzer") = false ->
  (forall ctx, call_tool name args ctx = (r, ctx)) ->
  snd (handle_call_tool name args st) = snd (ensure_analyzer st) /\
  fst (handle_call_tool name args st) =
  match fst (ensure_analyzer st), r with
  | Raise e, _ | Return _, Raise e =>
      Return [text_content ("Error executing tool " ++ name ++ ": " ++ e)]
  | Return _, Return l => Return l
  end.
Proof.
  intros Hname Hc. unfold handle_call_tool, try_except. rewrite Hname.
  unfold bind.
  destruct (ensure_analyzer st) as [r0 st1] eqn:He. cbn [fst snd].
  apply ensure_analyzer_cases in He as [[-> [a Ha]]|[e [-> ->]]].
  - rewrite (on_instance_unchanged _ r _ a Hc Ha). now destruct r.
  - now split.
Qed.

(** The lazy initialisation is not seen by the next call. *)
Lemma handle_call_tool_after_ensure (name : string) (args : arguments)
    (st : Server) :
  fst (handle_call_tool name args (snd (ensure_analyzer st))) =
  fst (handle_call_tool name args st).
Proof.
  unfold ensure_analyzer at 1.
  destruct (analyzer_instance st) as [a|] eqn:Ha; [reflexivity|].
  unfold new_analyzer at 1.
  destruct (construct (host st) "config.yaml") as [cfg|e] eqn:Hc;
    [|reflexivity].
  cbn [snd]. unfold handle_call_tool, try_except.
  destruct (name =? "initialize_analyzer").
  - unfold bind, new_analyzer. cbn [host].
    destruct (construct (host st)
                (get_default args "config_path" "config.yaml"));
      reflexivity.
  - unfold bind, ensure_analyzer. cbn [analyzer_instance].
    rewrite Ha. unfold new_analyzer. rewrite Hc. reflexivity.
Qed.

Lemma last_module_none (ms : list VerilogModule) :
  last_module ms = None -> ms = [].
Proof.
  unfold last_module. induction ms as [|m ms IH]; [reflexivity|].
  cbn [map last]. destruct ms as [|m' ms]; [discriminate|].
  intros H. apply IH in H. discriminate H.
Qed.

Lemma last_module_in (ms : list VerilogModule) :
  ms <> [] -> exists m, last_module ms = Some m /\ In m ms.
Proof.
  unfold last_module. induction ms as [|m ms IH]; [congruence|]. intros _.
  destruct ms as [|m' ms].
  - exists m. split; [reflexivity | now left].
  - destruct IH as (x & Hx & Hin); [discriminate|].
    exists x. split; [exact Hx | now right].
Qed.

(** The parse operation on an initialised server, for a path that is
    given and exists: the file is parsed, then the last record of the
    collection is reported, or the failure when there is none. *)
Lemma parse_operation_spec (args : arguments) (file_path : string)
    (st : Server) (a : VerilogAnalyzer) :
  analyzer_instance st = Some a ->
  get args "file_path" = Some file_path ->
  path_exists (host st) file_path = true ->
  exists records,
    _parse_verilog_file file_path {| env := host st; self := a |} =
    (Return tt, add_modules {| env := host st; self := a |} records) /\
    on_instance (call_tool "parse_verilog_file" args) st =
    (Return [text_content
               match last_module (modules a ++ records) with
               | Some module => parsed_message file_path module
               | None => "Failed to parse module from " ++ file_path
               end],
     {| host := host st;
        analyzer_instance :=
          Some {| config := config a; modules := modules a ++ records |} |}).
Proof.
  intros Ha Hget Hex.
  destruct (parse_verilog_file_spec file_path {| env := host st; self := a |})
    as (records & Hparse & _).
  exists records. split; [exact Hparse|].
  unfold on_instance. rewrite Ha.
  change (call_tool "parse_verilog_file" args)
    with (call_parse_verilog_file args).
  unfold call_parse_verilog_file, bind at 1, subscript. rewrite Hget.
  unfold ret at 1, bind at 1, get_env. cbn [env]. rewrite Hex. cbn [negb].
  unfold bind at 1. rewrite Hparse. unfold bind, get_self.
  cbn [add_modules self modules env config].
  now destruct (last_module (modules a ++ records)).
Qed.

End FrontEnd.

(** C8 as stated fails: the dispatch table does not hold nine
    operations. *)
Lemma dispatch_table_is_not_nine :
  List.length handle_list_tools <> 9.
Proof. vm_compute. discriminate. Qed.

(** C8, as the code has it.  The dispatch table holds ten named
    operations, all different: initialize, load-files,
    list-loaded-modules, parse-one-file, extract-ports-from-text,
    analyze-one-module, analyze-all-modules, generate-document,
    run-full-pipeline and get-module-details.  Each has its branch in
    the dispatcher, every call returns one text payload, and a name
    outside the table is answered [Unknown tool]. *)
Theorem dispatch_table_has_ten_operations :
  tool_names =
  ["initialize_analyzer"; "load_verilog_files"; "get_loaded_modules";
   "parse_verilog_file"; "extract_ports"; "analyze_single_module";
   "analyze_all_modules"; "generate_latex_document";
   "run_complete_analysis"; "get_module_details"] /\
  List.length handle_list_tools = 10 /\
  NoDup tool_names /\
  (forall args,
      call_tool "load_verilog_files" args = call_load_verilog_files args /\
      call_tool "get_loaded_modules" args = call_get_loaded_modules /\
      call_tool "parse_verilog_file" args = call_parse_verilog_file args /\
      call_tool "extract_ports" args = call_extract_ports args /\
      call_tool "analyze_single_module" args =
      call_analyze_single_module args /\
      call_tool "analyze_all_modules" args = call_analyze_all_modules /\
      call_tool "generate_latex_document" args =
      call_generate_latex_document args /\
      call_tool "run_complete_analysis" args =
      call_run_complete_analysis args /\
      call_tool "get_module_details" args = call_get_module_details args) /\
  (forall name args st,
      exists t, fst (handle_call_tool name args st) = Return [text_content t]) /\
  (forall name args st a,
      ~ In name tool_names ->
      analyzer_instance st = Some a ->
      handle_call_tool name args st =
      (Return [text_content ("Unknown tool: " ++ name)], st)).
Proof.
  split; [reflexivity|]. split; [reflexivity|]. split; [|split; [|split]].
  - unfold tool_names, handle_list_tools. cbn [map tool Tool.name].
    repeat (constructor; [cbn [In]; intuition discriminate|]). constructor.
  - intros args. repeat split.
  - exact handle_call_tool_single.
  - intros name args st a Hout Ha.
    destruct (outside_table name Hout) as [Hname Hunknown].
    destruct (handle_call_tool_inert name args
                (Return [text_content ("Unknown tool: " ++ name)]) st Hname)
      as [Hsnd Hfst].
    + intros ctx. now rewrite Hunknown.
    + rewrite (ensure_analyzer_some st a Ha) in Hsnd, Hfst. cbn in Hsnd, Hfst.
      destruct (handle_call_tool name args st) as [r st']. cbn in *. congruence.
Qed.

Lemma dispatch_table_has_ten_operations_witness :
  handle_call_tool "delete_everything" [] sample_loaded_server =
  (Return [text_content "Unknown tool: delete_everything"],
   sample_loaded_server).
Proof.
  apply (proj2 (proj2 (proj2 (proj2 (proj2
           dispatch_table_has_ten_operations))))
           "delete_everything" [] sample_loaded_server
           {| config := sample_config; modules := [sample_module] |}).
  - vm_compute. intuition discriminate.
  - reflexivity.
Defined.

(** C9.  A call that leaves out an argument its operation requires, or
    that names an operation outside the table, is answered by one text
    payload that reports the error; nothing is raised.  The call
    changes nothing but the lazy construction of the analyzer, and every
    next call is answered, with the answer it would have had without
    the failed call. *)
Theorem bad_call_is_answered_in_text :
  forall (name : string) (args : arguments) (st : Server),
    misses_required name args \/ ~ In name tool_names ->
    (exists t,
        fst (handle_call_tool name args st) = Return [text_content t] /\
        (t = "Unknown tool: " ++ name \/
         exists e, t = "Error executing tool " ++ name ++ ": " ++ e)) /\
    (forall a,
        analyzer_instance st = Some a ->
        misses_required name args ->
        exists r,
          get args r = None /\
          handle_call_tool name args st =
          (Return [text_content
                     ("Error executing tool " ++ name ++ ": '" ++ r ++ "'")],
           st)) /\
    snd (handle_call_tool name args st) = snd (ensure_analyzer st) /\
    host (snd (handle_call_tool name args st)) = host st /\
    (forall name' args',
        (exists t',
            fst (handle_call_tool name' args'
                   (snd (handle_call_tool name args st))) =
            Return [text_content t']) /\
        fst (handle_call_tool name' args'
               (snd (handle_call_tool name args st))) =
        fst (handle_call_tool name' args' st)).
Proof.
  intros name args st Hbad.
  assert (Hinert : exists r,
             (name =? "initialize_analyzer") = false /\
             (forall ctx, call_tool name args ctx = (r, ctx)) /\
             (r = Return [text_content ("Unknown tool: " ++ name)] \/
              exists k, get args k = None /\ misses_required name args /\
                        r = Raise ("'" ++ k ++ "'"))).
  { destruct Hbad as [Hmiss|Hout].
    - destruct (call_tool_missing name args Hmiss) as (Hname & k & Hget & Hk).
      exists (Raise ("'" ++ k ++ "'")). repeat split; try assumption.
      right. now exists k.
    - destruct (outside_table name Hout) as [Hname Hunknown].
      exists (Return [text_content ("Unknown tool: " ++ name)]).
      repeat split; try assumption; [|now left].
      intros ctx. now rewrite Hunknown. }
  destruct Hinert as (r & Hname & Hcall & Hr).
  destruct (handle_call_tool_inert name args r st Hname Hcall) as [Hsnd Hfst].
  assert (Hhost : host (snd (ensure_analyzer st)) = host st).
  { unfold ensure_analyzer, new_analyzer.
    destruct (analyzer_instance st); [reflexivity|].
    now destruct (construct (host st) "config.yaml"). }
  split; [|split; [|split; [|split]]].
  - rewrite Hfst. destruct (fst (ensure_analyzer st)) as [[]|e].
    + destruct Hr as [->|(k & _ & _ & ->)]; eexists; split; try reflexivity;
        [now left | right; now eexists].
    + eexists; split; [reflexivity|]. right; now eexists.
  - intros a Ha Hmiss.
    destruct (call_tool_missing name args Hmiss) as (_ & k & Hget & Hk).
    exists k. split; [exact Hget|].
    assert (r = Raise ("'" ++ k ++ "'")) as ->.
    { specialize (Hcall {| env := host st; self := a |}).
      specialize (Hk {| env := host st; self := a |}). congruence. }
    rewrite (ensure_analyzer_some st a Ha) in Hsnd, Hfst.
    destruct (handle_call_tool name args st) as [r' st'].
    cbn [fst snd] in Hsnd, Hfst. subst r' st'. reflexivity.
  - exact Hsnd.
  - now rewrite Hsnd.
  - intros name' args'. rewrite Hsnd, handle_call_tool_after_ensure.
    split; [apply handle_call_tool_single | reflexivity].
Qed.

Lemma bad_call_is_answered_in_text_witness :
  exists r,
    get [("directory", "rtl")] r = None /\
    handle_call_tool "load_verilog_files" [("directory", "rtl")]
      sample_loaded_server =
    (Return [text_content
               ("Error executing tool load_verilog_files: '" ++ r ++ "'")],
     sample_loaded_server).
Proof.
  assert (Hmiss : misses_required "load_verilog_files" [("directory", "rtl")]).
  { exists (tool "load_verilog_files" "Load Verilog files from a directory"
              [property "input_dir" "Directory path containing Verilog files"
                 None]
              ["input_dir"]), "input_dir".
    repeat split; [right; now left | now left]. }
  destruct (bad_call_is_answered_in_text "load_verilog_files"
              [("directory", "rtl")] sample_loaded_server (or_introl Hmiss))
    as (_ & Hkey & _).
  exact (Hkey {| config := sample_config; modules := [sample_module] |}
           eq_refl Hmiss).
Defined.

(** C10.  The parse operation called on an existing file whose text
    holds no match of the module-name pattern, while the collection is
    not empty, leaves the collection as it was and answers with the
    success message for its last record, a record loaded earlier; the
    failure message is returned only when the collection is empty after
    the attempt. *)
Theorem parse_operation_reports_the_last_module :
  (forall (st : Server) (a : VerilogAnalyzer) (args : arguments)
          (file_path code : string),
      analyzer_instance st = Some a ->
      modules a <> [] ->
      get args "file_path" = Some file_path ->
      path_exists (host st) file_path = true ->
      readable_text (host st) file_path = Some code ->
      Re.search module_pattern code = None ->
      exists module,
        last_module (modules a) = Some module /\
        In module (modules a) /\
        handle_call_tool "parse_verilog_file" args st =
        (Return [text_content (parsed_message file_path module)], st)) /\
  (forall (st : Server) (args : arguments) (file_path : string),
      get args "file_path" = Some file_path ->
      fst (handle_call_tool "parse_verilog_file" args st) =
      Return [text_content ("Failed to parse module from " ++ file_path)] ->
      exists a',
        analyzer_instance (snd (handle_call_tool "parse_verilog_file" args st))
        = Some a' /\
        modules a' = []).
Proof.
  split.
  - intros st a args file_path code Ha Hne Hget Hex Hread Hnone.
    destruct (last_module_in (modules a) Hne) as (module & Hlast & Hin).
    exists module. split; [exact Hlast|]. split; [exact Hin|].
    destruct (parse_operation_spec args file_path st a Ha Hget Hex)
      as (records & Hparse & Hop).
    destruct (parse_verilog_file_spec file_path {| env := host st; self := a |})
      as (records' & Hparse' & Hrec).
    cbn [env] in Hrec. rewrite Hread in Hrec. unfold has_module in Hrec.
    cbn [snd] in Hrec. rewrite Hnone in Hrec. subst records'.
    assert (records = []) as ->.
    { rewrite Hparse in Hparse'. injection Hparse' as H.
      apply app_inv_head in H. exact H. }
    rewrite app_nil_r, Hlast in Hop.
    unfold handle_call_tool, try_except. cbn [String.eqb Ascii.eqb Bool.eqb].
    unfold bind. rewrite (ensure_analyzer_some st a Ha), Hop.
    destruct st as [w i]. cbn in Ha |- *. subst i. now destruct a.
  - intros st args file_path Hget.
    unfold handle_call_tool, try_except. cbn [String.eqb Ascii.eqb Bool.eqb].
    unfold bind.
    destruct (ensure_analyzer st) as [r0 st1] eqn:He.
    apply ensure_analyzer_cases in He as [[-> [a Ha]]|[e [-> ->]]].
    + destruct (path_exists (host st1) file_path) eqn:Hex.
      * destruct (parse_operation_spec args file_path st1 a Ha Hget Hex)
          as (records & _ & ->).
        cbn [fst snd analyzer_instance].
        destruct (last_module (modules a ++ records)) as [module|] eqn:Hlast.
        -- intros H. discriminate H.
        -- intros _. eexists. split; [reflexivity|].
           now apply last_module_none.
      * unfold on_instance. rewrite Ha.
        change (call_tool "parse_verilog_file" args)
          with (call_parse_verilog_file args).
        unfold call_parse_verilog_file, bind, subscript. rewrite Hget.
        unfold ret at 1, get_env. cbn [env]. rewrite Hex.
        cbn. intros H. discriminate H.
    + cbn. intros H. discriminate H.
Qed.

Lemma parse_operation_reports_the_last_module_witness :
  exists module,
    last_module [sample_module] = Some module /\
    In module [sample_module] /\
    handle_call_tool "parse_verilog_file" [("file_path", "notes.v")]
      sample_loaded_server =
    (Return [text_content (parsed_message "notes.v" module)],
     sample_loaded_server).
Proof.
  apply (proj1 parse_operation_reports_the_last_module
           sample_loaded_server
           {| config := sample_config; modules := [sample_module] |}
           [("file_path", "notes.v")] "notes.v"
           "// submodules are listed in the manual").
  - reflexivity.
  - discriminate.
  - reflexivity.
  - reflexivity.
  - reflexivity.
  - vm_compute. reflexivity.
Defined.

(** * Further properties *)

(** ** Loading, in closed form *)

Section LoadingClosedForm.

Lemma parse_verilog_file_closed (path : string) (st : Ctx) :
  _parse_verilog_file path st =
  (Return tt, add_modules st (records_from (env st) [path])).
Proof.
  unfold _parse_verilog_file, try_except, bind, records_from.
  rewrite read_file_readable. cbn [readable_files].
  destruct (readable_text (env st) path) as [text|] eqn:Hr.
  - cbn [flat_map]. unfold record_of. cbn [fst snd]. rewrite app_nil_r.
    destruct (Re.search module_pattern text); [reflexivity|].
    unfold ret. now rewrite add_modules_nil.
  - apply readable_text_none in Hr as [e ->]. cbn [flat_map].
    unfold ret. now rewrite add_modules_nil.
Qed.

Lemma readable_files_app (w : World) (a b : list string) :
  readable_files w (a ++ b) = (readable_files w a ++ readable_files w b)%list.
Proof.
  induction a as [|p a IH]; [reflexivity|]. cbn [app readable_files].
  destruct (readable_text w p); [cbn; now rewrite IH | exact IH].
Qed.

Lemma records_from_cons (w : World) (path : string) (files : list string) :
  records_from w (path :: files) =
  (records_from w [path] ++ records_from w files)%list.
Proof.
  unfold records_from. change (path :: files) with ([path] ++ files)%list.
  now rewrite readable_files_app, flat_map_app.
Qed.

Lemma for_each_parse_closed (files : list string) (st : Ctx) :
  for_each files _parse_verilog_file st =
  (Return tt, add_modules st (records_from (env st) files)).
Proof.
  revert st; induction files as [|path files IH]; intros st.
  - cbn. unfold ret. now rewrite add_modules_nil.
  - cbn [for_each]. unfold bind. rewrite parse_verilog_file_closed, IH.
    cbn [add_modules env]. now rewrite add_modules_app, <- records_from_cons.
Qed.

Lemma load_verilog_files_closed (input_dir : option string) (st : Ctx) :
  load_verilog_files input_dir st =
  (Return tt,
   add_modules st (records_from (env st) (enumeration st input_dir))).
Proof.
  unfold load_verilog_files, bind, get_self, get_env, enumeration.
  destruct input_dir; apply for_each_parse_closed.
Qed.

End LoadingClosedForm.

(** X6.  Loading is append-only and keeps no record of what it has loaded:
    loading the same directory twice leaves the collection it found in
    place and appends the records of the directory twice, in order. *)
Theorem loading_twice_appends_twice :
  forall (st : Ctx) (input_dir : option string),
    (load_verilog_files input_dir ;; load_verilog_files input_dir) st =
    (Return tt,
     add_modules st
       (records_from (env st) (enumeration st input_dir) ++
        records_from (env st) (enumeration st input_dir))).
Proof.
  intros st input_dir. unfold bind.
  rewrite load_verilog_files_closed, load_verilog_files_closed.
  now rewrite add_modules_app.
Qed.

(** ** Paths *)

Section Paths.

Lemma contains_iff (s sub : string) :
  Py.contains s sub = true <-> occurs sub s.
Proof.
  unfold Py.contains. pose proof (find_absent s sub) as H.
  destruct (Z.eqb_spec (Py.find s sub) (-1)) as [E|E]; cbn.
  - split; [discriminate | intros Ho; now apply H in E].
  - split; [intros _ | reflexivity].
    destruct (find_from_spec sub s 0) as [[Hm _]|[[p [[Hocc _] _]]|Hlt]];
      [unfold Py.find in E; congruence | now exists p | lia].
Qed.

Lemma contains_false (s sub : string) :
  Py.contains s sub = false <-> ~ occurs sub s.
Proof.
  rewrite <- contains_iff. destruct (Py.contains s sub); split; congruence.
Qed.

Lemma basename_after_slash (a f : string) :
  ~ occurs "/" f -> Str.basename (a ++ "/" ++ f) = f.
Proof.
  intros Hf. induction a as [|c a IH].
  - change ("" ++ "/" ++ f) with (String "/" f). cbn [Str.basename].
    apply contains_false in Hf. now rewrite Hf.
  - change (String c a ++ "/" ++ f) with (String c (a ++ "/" ++ f)).
    cbn [Str.basename].
    assert (H : Py.contains (a ++ "/" ++ f) "/" = true)
      by (apply contains_iff; apply occurs_middle).
    now rewrite H.
Qed.

Lemma basename_plain (f : string) : ~ occurs "/" f -> Str.basename f = f.
Proof.
  intros Hf. destruct f as [|c f]; [reflexivity|]. cbn [Str.basename].
  assert (H1 : Py.contains f "/" = false).
  { apply contains_false. intros H. apply Hf. now apply occurs_tail. }
  rewrite H1. destruct (Ascii.eqb_spec c "/") as [->|_]; [|reflexivity].
  exfalso. apply Hf. apply occurs_prefix, prefix_iff. now exists f.
Qed.

Lemma endswith_split (s p : string) :
  Py.endswith s p = true -> exists a, s = a ++ p.
Proof.
  unfold Py.endswith. intros H. apply andb_prop in H as [_ H].
  apply String.eqb_eq in H. exists (Py.take (length s - length p) s).
  rewrite <- H at 2. symmetry. apply take_drop.
Qed.

(** [os.path.basename] undoes [os.path.join] on a name without
    slash. *)
Lemma basename_path_join (d f : string) :
  ~ occurs "/" f -> Str.basename (Str.path_join d f) = f.
Proof.
  intros Hf. unfold Str.path_join, Py.startswith.
  destruct (prefix "/" f) eqn:Hp; [exfalso; apply Hf; now apply occurs_prefix|].
  destruct (String.eqb_spec d "") as [->|_]; cbn [orb].
  - now apply basename_plain.
  - destruct (Py.endswith d "/") eqn:He.
    + apply endswith_split in He as [a ->]. rewrite append_assoc.
      now apply basename_after_slash.
    + now apply basename_after_slash.
Qed.

End Paths.

(** X7.  A readable file [f] of the directory [d] that declares a module
    is recorded under the filename [f], without the directory, whatever
    the form of [d]. *)
Theorem parsed_file_is_recorded_under_its_base_name :
  forall (st : Ctx) (d f text : string) (m : Re.Match),
    ~ occurs "/" f ->
    readable_text (env st) (Str.path_join d f) = Some text ->
    Re.search module_pattern text = Some m ->
    exists r,
      _parse_verilog_file (Str.path_join d f) st =
      (Return tt, add_modules st [r]) /\
      filename r = f /\ name r = Re.group_text m 1 /\ code r = text.
Proof.
  intros st d f text m Hf Hread Hm.
  rewrite parse_verilog_file_closed. unfold records_from.
  cbn [readable_files]. rewrite Hread. cbn [flat_map]. unfold record_of.
  cbn [fst snd]. rewrite Hm, basename_path_join by exact Hf.
  eexists. split; [reflexivity|]. now repeat split.
Qed.

Lemma parsed_file_is_recorded_under_its_base_name_witness :
  exists r,
    _parse_verilog_file (Str.path_join "rtl" "counter.v") sample_fresh =
    (Return tt, add_modules sample_fresh [r]) /\
    filename r = "counter.v" /\ name r = "counter" /\
    code r = "module counter(input clk, output reg q); endmodule".
Proof.
  apply (parsed_file_is_recorded_under_its_base_name sample_fresh
           "rtl" "counter.v"
           "module counter(input clk, output reg q); endmodule"
           {| Re.span := 14; Re.captured := [(1, "counter")] |}).
  - apply find_absent. vm_compute. reflexivity.
  - reflexivity.
  - vm_compute. reflexivity.
Defined.

(** ** The document generator at its edges *)

Section GeneratorEdges.

Lemma generate_latex_document_unreadable
    (template_path : string) (output_path : option string) (st : Ctx) :
  readable_text (env st) template_path = None ->
  exists e, generate_latex_document template_path output_path st = (Raise e, st).
Proof.
  intros Hr. unfold generate_latex_document, bind, get_self.
  rewrite read_file_readable, Hr.
  apply readable_text_none in Hr as [e ->]. now exists e.
Qed.

Lemma generate_latex_document_unwritable
    (template_path : string) (output_path : option string) (st : Ctx)
    (template e : string) :
  readable_text (env st) template_path = Some template ->
  write_error (env st)
    match output_path with
    | Some p => p
    | None => latex_filename (config (self st))
    end = Some e ->
  generate_latex_document template_path output_path st =
  (Raise e, after_requests st 1 (modules (self st))).
Proof.
  intros Hread Hwrite. unfold generate_latex_document, bind, get_self.
  rewrite read_file_readable, Hread, generate_complete_document_spec.
  unfold write_file. cbn [env after_requests set_calls write_error self config].
  now destruct output_path; rewrite Hwrite.
Qed.

End GeneratorEdges.

(** X8.  The document generator reads the template before it asks the
    external model, and writes last.  With an unreadable template it
    raises and leaves the state as it was: no request is made and no
    file is written.  With a readable template and an output that cannot
    be written it raises after exactly one request, and no file is
    written. *)
Theorem generate_latex_document_failures :
  forall (template_path : string) (output_path : option string) (st : Ctx),
    (readable_text (env st) template_path = None ->
     exists e,
       generate_latex_document template_path output_path st = (Raise e, st)) /\
    (forall template e,
        readable_text (env st) template_path = Some template ->
        write_error (env st)
          match output_path with
          | Some p => p
          | None => latex_filename (config (self st))
          end = Some e ->
        exists final,
          generate_latex_document template_path output_path st =
          (Raise e, final) /\
          calls (env final) = calls (env st) + 1 /\
          written (env final) = written (env st) /\
          self final = self st).
Proof.
  intros template_path output_path st. split.
  - apply generate_latex_document_unreadable.
  - intros template e Hread Hwrite. eexists.
    split; [now apply (generate_latex_document_unwritable _ _ _ template)|].
    cbn. now destruct st as [w [cfg ms]].
Qed.

Lemma generate_latex_document_failures_witness :
  exists e,
    generate_latex_document "missing.tex" None sample_fresh =
    (Raise e, sample_fresh).
Proof.
  apply (proj1 (generate_latex_document_failures "missing.tex" None
                  sample_fresh)).
  reflexivity.
Defined.

(** ** The complete run *)

Section CompleteRun.



End CompleteRun.



(** ** Operations of the front end *)

Section Operations.

(** A call on a server that holds its analyzer: the branch runs on the
    analyzer, and what it raises becomes the error text. *)
Lemma handle_call_tool_initialised (name : string) (args : arguments)
    (st : Server) (a : VerilogAnalyzer) :
  (name =? "initialize_analyzer") = false ->
  analyzer_instance st = Some a ->
  handle_call_tool name args st =
  match call_tool name args {| env := host st; self := a |} with
  | (Return l, ctx) =>
      (Return l, {| host := env ctx; analyzer_instance := Some (self ctx) |})
  | (Raise e, ctx) =>
      (Return [text_content ("Error executing tool " ++ name ++ ": " ++ e)],
       {| host := env ctx; analyzer_instance := Some (self ctx) |})
  end.
Proof.
  intros Hname Ha. unfold handle_call_tool, try_except. rewrite Hname.
  unfold bind. rewrite (ensure_analyzer_some st a Ha).
  unfold on_instance. rewrite Ha.
  destruct (call_tool name args _) as [[l|e] ctx]; reflexivity.
Qed.


End Operations.



(** X11.  The initialize operation replaces the analyzer: when the
    constructor succeeds, the modules loaded before are gone and the
    next list-loaded-modules call finds none; when it raises, the
    analyzer and its modules stay as they were and the error is
    answered in text. *)
Theorem initialize_analyzer_replaces_the_analyzer :
  forall (st : Server) (args : arguments),
    let config_path := get_default args "config_path" "config.yaml" in
    (forall cfg,
        construct (host st) config_path = inl cfg ->
        exists st',
          handle_call_tool "initialize_analyzer" args st =
          (Return [text_content
                     ("Verilog analyzer initialized successfully with config: "
                      ++ config_path)], st') /\
          analyzer_instance st' = Some {| config := cfg; modules := [] |} /\
          host st' = host st /\
          forall args',
            handle_call_tool "get_loaded_modules" args' st' =
            (Return [text_content
                       "No modules currently loaded. Use load_verilog_files first."],
             st')) /\
    (forall e,
        construct (host st) config_path = inr e ->
        handle_call_tool "initialize_analyzer" args st =
        (Return [text_content
                   ("Error executing tool initialize_analyzer: " ++ e)], st)).
Proof.
  intros st args config_path. split.
  - intros cfg Hc.
    exists {| host := host st;
              analyzer_instance := Some {| config := cfg; modules := [] |} |}.
    split; [|split; [|split]].
    + unfold handle_call_tool, try_except, bind, new_analyzer.
      cbn [String.eqb Ascii.eqb Bool.eqb]. fold config_path. rewrite Hc.
      reflexivity.
    + reflexivity.
    + reflexivity.
    + intros args'.
      rewrite (handle_call_tool_initialised "get_loaded_modules" args'
                 {| host := host st;
                    analyzer_instance :=
                      Some {| config := cfg; modules := [] |} |}
                 {| config := cfg; modules := [] |} eq_refl eq_refl).
      reflexivity.
  - intros e Hc. unfold handle_call_tool, try_except, bind, new_analyzer.
    cbn [String.eqb Ascii.eqb Bool.eqb]. fold config_path. rewrite Hc.
    reflexivity.
Qed.

Lemma initialize_analyzer_replaces_the_analyzer_witness :
  exists st',
    handle_call_tool "initialize_analyzer" [] sample_loaded_server =
    (Return [text_content
               "Verilog analyzer initialized successfully with config: config.yaml"],
     st') /\
    analyzer_instance st' = Some {| config := sample_config; modules := [] |} /\
    host st' = sample_world /\
    forall args',
      handle_call_tool "get_loaded_modules" args' st' =
      (Return [text_content
                 "No modules currently loaded. Use load_verilog_files first."],
       st').
Proof.
  apply (proj1 (initialize_analyzer_replaces_the_analyzer
                  sample_loaded_server []) sample_config).
  reflexivity.
Defined.

(** X12.  The run-full-pipeline operation answers with its success text, a
    module count of zero and the name of the output document when the
    collection is empty and the directory yields no module, although the
    pipeline has stopped before writing anything: the state is left as
    it was. *)
Theorem run_operation_reports_success_without_a_document :
  forall (st : Server) (a : VerilogAnalyzer) (args : arguments) (d : string),
    analyzer_instance st = Some a ->
    modules a = [] ->
    get args "input_dir" = Some d ->
    records_from (host st)
      (enumeration {| env := host st; self := a |} (Some d)) = [] ->
    handle_call_tool "run_complete_analysis" args st =
    (Return [text_content
               ("Complete analysis pipeline finished successfully!" ++ Py.nl ++
                "Processed 0 modules" ++ Py.nl ++
                "Generated document: " ++
                final_output (get args "output_path") a ++ Py.nl ++
                "Modules: ")],
     st).
Proof.
  intros st a args d Ha Hms Hget Hrec.
  rewrite (handle_call_tool_initialised "run_complete_analysis" args st a
             eq_refl Ha).
  change (call_tool "run_complete_analysis" args)
    with (call_run_complete_analysis args).
  unfold call_run_complete_analysis, bind at 1, subscript. rewrite Hget.
  unfold ret at 1, bind at 1.
  rewrite run_complete_analysis_spec. cbv zeta.
  rewrite load_verilog_files_closed. cbn [snd add_modules env self modules].
  rewrite Hrec, Hms. cbn [app]. unfold bind, get_self, reply_text, ret.
  cbn [self modules config env List.length names map].
  destruct st as [w i]. cbn in Ha |- *. subst i.
  destruct a as [cfg ms]. cbn in Hms |- *. subst ms. reflexivity.
Qed.

Lemma run_operation_reports_success_without_a_document_witness :
  handle_call_tool "run_complete_analysis" [("input_dir", "rtl")]
    {| host := sample_world;
       analyzer_instance :=
         Some {| config := sample_config; modules := [] |} |} =
  (Return [text_content
             ("Complete analysis pipeline finished successfully!" ++ Py.nl ++
              "Processed 0 modules" ++ Py.nl ++
              "Generated document: " ++ "spec.tex" ++ Py.nl ++
              "Modules: ")],
   {| host := sample_world;
      analyzer_instance :=
        Some {| config := sample_config; modules := [] |} |}).
Proof.
  apply (run_operation_reports_success_without_a_document
           {| host := sample_world;
              analyzer_instance :=
                Some {| config := sample_config; modules := [] |} |}
           {| config := sample_config; modules := [] |}
           [("input_dir", "rtl")] "rtl"); reflexivity.
Defined.

(** ** Splicing again *)

Section SpliceAgain.

Lemma first_occurrence_length (sub s p q : string) :
  first_occurrence sub s p -> first_occurrence sub s q ->
  length p = length q.
Proof.
  intros [Hp Hpmin] [Hq Hqmin].
  apply Nat.le_antisymm; [now apply Hpmin | now apply Hqmin].
Qed.

Lemma find_first (s sub p : string) :
  first_occurrence sub s p -> Py.find s sub = Z.of_nat (length p).
Proof.
  intros Hp. destruct (find_present s sub) as (q & Hq & ->);
    [destruct Hp as [Hp _]; now exists p|].
  now rewrite (first_occurrence_length sub s q p Hq Hp).
Qed.

(** The splice, once the places of the two markers are known. *)
Lemma replace_at (template body pre front post : string) :
  first_occurrence begin_document template pre ->
  first_occurrence end_document template front ->
  template = front ++ post ->
  _replace_entire_document_content template body =
  (pre ++ begin_document) ++ Py.nl ++ Py.nl ++ body ++ Py.nl ++ Py.nl ++ post.
Proof.
  intros Hpre Hfront Hpost. unfold _replace_entire_document_content.
  rewrite (find_first _ _ _ Hpre), (find_first _ _ _ Hfront).
  replace ((Z.of_nat (length pre) =? -1) || (Z.of_nat (length front) =? -1))%Z
    with false
    by (symmetry; apply orb_false_iff; split; apply Z.eqb_neq; lia).
  destruct Hpre as [[r1 Hr1] _]. f_equal.
  - rewrite <- Nat2Z.inj_add, <- length_append.
    rewrite Hr1 at 1. rewrite <- append_assoc. apply slice_to_prefix.
  - do 5 f_equal. rewrite Hpost at 1. apply slice_from_prefix.
Qed.

(** A text without the character [c] that begins [x ++ c ++ y] begins
    [x]. *)
Lemma prefix_before_char (c : ascii) (sub x y : string) :
  all_in (fun a => negb (Ascii.eqb a c)) sub = true ->
  prefix sub (x ++ String c y) = true -> prefix sub x = true.
Proof.
  revert x; induction sub as [|a sub IH]; intros x Hfree Hp.
  - now destruct x.
  - cbn [all_in] in Hfree. apply andb_prop in Hfree as [Ha Hfree].
    destruct x as [|b x]; cbn in Hp |- *.
    + destruct (ascii_dec a c) as [->|_]; [|discriminate].
      now rewrite Ascii.eqb_refl in Ha.
    + destruct (ascii_dec a b); [now apply IH | discriminate].
Qed.

(** An occurrence of such a text in [x ++ c ++ y] lies in [x] or in
    [y]. *)
Lemma occurs_at_before_char (c : ascii) (sub x y p : string) :
  all_in (fun a => negb (Ascii.eqb a c)) sub = true ->
  occurs_at sub (x ++ String c y) p ->
  occurs_at sub x p \/
  exists p', p = x ++ String c p' /\ occurs_at sub y p'.
Proof.
  intros Hfree. revert p; induction x as [|a x IH]; intros p Hocc.
  - destruct p as [|d p].
    + left. apply occurs_at_nil. apply occurs_at_nil in Hocc.
      now apply (prefix_before_char c sub "" y).
    + right. cbn [append] in Hocc.
      pose proof (occurs_at_head _ _ _ _ _ Hocc) as <-.
      apply occurs_at_cons in Hocc. now exists p.
  - cbn [append] in Hocc. destruct p as [|d p].
    + left. apply occurs_at_nil. apply occurs_at_nil in Hocc.
      now apply (prefix_before_char c sub (String a x) y).
    + pose proof (occurs_at_head _ _ _ _ _ Hocc) as <-.
      apply occurs_at_cons in Hocc. destruct (IH p Hocc) as [H|(p' & -> & H)].
      * left. now apply occurs_at_cons.
      * right. now exists p'.
Qed.

Lemma occurs_at_length (sub s p : string) :
  occurs_at sub s p -> length p + length sub <= length s.
Proof. intros [r ->]. rewrite !length_append. lia. Qed.

Lemma occurs_at_extend (sub s p t : string) :
  occurs_at sub s p -> occurs_at sub (s ++ t) p.
Proof.
  intros [r ->]. exists (r ++ t). now rewrite !append_assoc.
Qed.

End SpliceAgain.

(** X1.  A generated document can serve as the template of the next run.
    When the first begin marker of the template ends before its first
    end marker starts and the body holds no end marker, splicing a new
    body into the result gives what splicing it into the template
    gives: the earlier body is replaced, the text around the markers is
    kept. *)
Theorem splicing_again_replaces_the_body :
  forall (template body body' pre front : string),
    first_occurrence begin_document template pre ->
    first_occurrence end_document template front ->
    length pre + length begin_document <= length front ->
    ~ occurs end_document body ->
    _replace_entire_document_content
      (_replace_entire_document_content template body) body' =
    _replace_entire_document_content template body'.
Proof.
  intros template body body' pre front Hpre Hfront Horder Hbody.
  destruct Hfront as [[r2 Hr2] Hfmin].
  destruct Hpre as [[r1 Hr1] Hpmin].
  set (post := end_document ++ r2).
  set (c := ascii_of_nat 10).
  set (P := pre ++ begin_document).
  assert (Hfront : first_occurrence end_document template front)
    by (split; [now exists r2 | exact Hfmin]).
  assert (Hpre : first_occurrence begin_document template pre)
    by (split; [now exists r1 | exact Hpmin]).
  assert (HP : template = P ++ r1) by (unfold P; now rewrite append_assoc).
  rewrite (replace_at template body pre front post Hpre Hfront Hr2).
  rewrite (replace_at template body' pre front post Hpre Hfront Hr2).
  fold P.
  change (P ++ Py.nl ++ Py.nl ++ body ++ Py.nl ++ Py.nl ++ post)
    with (P ++ String c (String c (body ++ String c (String c post)))).
  assert (Hb : all_in (fun a => negb (Ascii.eqb a c)) begin_document = true)
    by reflexivity.
  assert (He : all_in (fun a => negb (Ascii.eqb a c)) end_document = true)
    by reflexivity.
  apply (replace_at _ body' pre (P ++ String c (String c (body ++ String c (String c "")))) post).
  - split.
    + exists (String c (String c (body ++ String c (String c post)))).
      unfold P. now rewrite append_assoc.
    + intros p' Hocc.
      apply (occurs_at_before_char c _ _ _ _ Hb) in Hocc
        as [Hin|(p1 & -> & _)].
      * apply Hpmin. rewrite HP. now apply occurs_at_extend.
      * unfold P. rewrite !length_append. lia.
  - split.
    + exists r2. rewrite !append_assoc. cbn [append].
      rewrite append_assoc. cbn [append]. reflexivity.
    + intros p' Hocc.
      apply (occurs_at_before_char c _ _ _ _ He) in Hocc
        as [Hin|(p1 & -> & Hocc)].
      * exfalso. pose proof (occurs_at_length _ _ _ Hin) as Hlen.
        assert (Hin' : occurs_at end_document template p')
          by (rewrite HP; now apply occurs_at_extend).
        apply Hfmin in Hin'. unfold P in Hlen. rewrite length_append in Hlen.
        cbn [length begin_document end_document] in Hlen, Horder. lia.
      * apply (occurs_at_before_char c _ "" _ _ He) in Hocc
          as [Hin|(p2 & -> & Hocc)].
        { destruct Hin as [r Hr]. destruct p1; discriminate Hr. }
        apply (occurs_at_before_char c _ _ _ _ He) in Hocc
          as [Hin|(p3 & -> & Hocc)].
        { exfalso. apply Hbody. now exists p2. }
        apply (occurs_at_before_char c _ "" _ _ He) in Hocc
          as [Hin|(p4 & -> & Hocc)].
        { destruct Hin as [r Hr]. destruct p3; discriminate Hr. }
        rewrite !length_append. cbn [length append]. rewrite !length_append.
        cbn [length]. lia.
  - rewrite !append_assoc. cbn [append]. rewrite append_assoc. reflexivity.
Qed.

Lemma splicing_again_replaces_the_body_witness :
  _replace_entire_document_content
    (_replace_entire_document_content
       "PRE\begin{document}OLD\end{document}POST" "FIRST") "SECOND" =
  _replace_entire_document_content
    "PRE\begin{document}OLD\end{document}POST" "SECOND".
Proof.
  assert (Hfirst : forall sub s p,
             occurs_at sub s p -> Py.find s sub = Z.of_nat (length p) ->
             first_occurrence sub s p).
  { intros sub s p Hocc Hfind. split; [exact Hocc|].
    intros q Hq. destruct (find_present s sub) as (p0 & [_ Hmin] & Hp0);
      [now exists q|].
    apply Hmin in Hq. lia. }
  apply (splicing_again_replaces_the_body
           "PRE\begin{document}OLD\end{document}POST" "FIRST" "SECOND"
           "PRE" "PRE\begin{document}OLD").
  - apply Hfirst; [now exists "OLD\end{document}POST" | reflexivity].
  - apply Hfirst; [now exists "POST" | reflexivity].
  - cbn. lia.
  - apply find_absent. reflexivity.
Defined.

(** ** The shape of what extraction reports *)

Section Shapes.

Context {R : Type}.

Lemma star_sound (cs : Re.charset) (s : string) (k : string -> option R)
    (x : R) :
  Re.star cs s k = Some x ->
  exists w t, s = w ++ t /\ all_in cs w = true /\ k t = Some x.
Proof.
  induction s as [|c s IH]; cbn [Re.star]; intros H.
  - now exists "", "".
  - destruct (cs c) eqn:Hc; [|now exists "", (String c s)].
    destruct (Re.star cs s k) as [y|] eqn:Hs.
    + injection H as ->. destruct (IH eq_refl) as (w & t & -> & Hw & Hk).
      exists (String c w), t. cbn [all_in]. now rewrite Hc, Hw.
    + now exists "", (String c s).
Qed.

Lemma plus_sound (cs : Re.charset) (s : string) (g : Re.groups)
    (k : string -> Re.groups -> option R) (x : R) :
  Re.run (Re.Plus cs) s g k = Some x ->
  exists w t,
    s = w ++ t /\ w <> "" /\ all_in cs w = true /\ k t g = Some x.
Proof.
  cbn [Re.run]. destruct s as [|c s]; [discriminate|].
  destruct (cs c) eqn:Hc; [|discriminate]. intros H.
  apply star_sound in H as (w & t & -> & Hw & Hk).
  exists (String c w), t. cbn [all_in]. rewrite Hc, Hw.
  now repeat split.
Qed.

(** A pattern without groups consumes a prefix of the text and hands
    the groups on as they were. *)
Lemma run_group_free (r : Re.regex) :
  group_free r = true ->
  forall (s : string) (g : Re.groups) (k : string -> Re.groups -> option R)
         (x : R),
    Re.run r s g k = Some x ->
    exists w t, s = w ++ t /\ k t g = Some x.
Proof.
  induction r as [text|cs|cs|a IHa b IHb|a IHa b IHb|a IHa|n a IHa];
    cbn [group_free]; intros Hfree s g k x H.
  - cbn [Re.run] in H. destruct (prefix text s) eqn:Hp; [|discriminate].
    apply prefix_iff in Hp as [t ->]. rewrite drop_append in H.
    now exists text, t.
  - apply plus_sound in H as (w & t & -> & _ & _ & Hk). now exists w, t.
  - cbn [Re.run] in H. apply star_sound in H as (w & t & -> & _ & Hk).
    now exists w, t.
  - apply andb_prop in Hfree as [Ha Hb]. cbn [Re.run] in H.
    apply (IHa Ha) in H as (w1 & t1 & -> & H).
    apply (IHb Hb) in H as (w2 & t2 & -> & H).
    exists (w1 ++ w2), t2. now rewrite append_assoc.
  - apply andb_prop in Hfree as [Ha Hb]. cbn [Re.run] in H.
    destruct (Re.run a s g k) as [y|] eqn:E.
    + injection H as ->. now apply (IHa Ha) in E.
    + now apply (IHb Hb) in H.
  - cbn [Re.run] in H. destruct (Re.run a s g k) as [y|] eqn:E.
    + injection H as ->. now apply (IHa Hfree) in E.
    + now exists "", s.
  - discriminate.
Qed.

End Shapes.

Section Reported.

Lemma scan_in (r : Re.regex) (s : string) :
  forall (skip : nat) (m : Re.Match),
    In m (Re.scan r s skip) ->
    exists p t, s = p ++ t /\ Re.match_here r t = Some m.
Proof.
  induction s as [|c s IH]; intros skip m Hin; [destruct Hin|].
  cbn [Re.scan] in Hin. destruct skip as [|n].
  - destruct (Re.match_here r (String c s)) as [m'|] eqn:Hm.
    + destruct Hin as [<-|Hin]; [now exists "", (String c s)|].
      destruct (IH _ _ Hin) as (p & t & -> & Ht). now exists (String c p), t.
    + destruct (IH _ _ Hin) as (p & t & -> & Ht). now exists (String c p), t.
  - destruct (IH _ _ Hin) as (p & t & -> & Ht). now exists (String c p), t.
Qed.

(** The last group of a pattern, a greedy run of [cs] that ends the
    match: it captures the longest run. *)
Lemma last_group_captures (n : nat) (cs : Re.charset) (s0 s : string)
    (g : Re.groups) (m : Re.Match) :
  Re.run (Re.Group n (Re.Plus cs)) s g
    (fun t g' =>
       Some {| Re.span := length s0 - length t; Re.captured := g' |}) =
  Some m ->
  exists v t,
    s = v ++ t /\ v <> "" /\ all_in cs v = true /\ starts_outside cs t /\
    Re.captured m = (n, v) :: g.
Proof.
  cbn [Re.run]. destruct s as [|d s]; [discriminate|].
  destruct (cs d) eqn:Hd; [|discriminate].
  rewrite star_accepting by discriminate. intros [= <-].
  exists (String d (take_while cs s)), (drop_while cs s).
  cbn [append all_in Re.captured]. rewrite take_drop_while, Hd, all_in_take_while.
  repeat split; [discriminate | apply starts_outside_drop_while|].
  pose proof (length_drop_while cs s) as Hle.
  change (match length (drop_while cs s) with
          | 0 => S (length s)
          | S l => length s - l
          end) with (S (length s) - length (drop_while cs s)).
  rewrite Nat.sub_succ_l by exact Hle.
  cbn [Py.take]. now rewrite take_length_drop_while.
Qed.

End Reported.

Section Peeling.

Context {R : Type}.

Lemma seq_peel (r1 r2 : Re.regex) (s : string) (g : Re.groups)
    (k : string -> Re.groups -> option R) (x : R) :
  group_free r1 = true ->
  Re.run (Re.Seq r1 r2) s g k = Some x ->
  exists w t, s = w ++ t /\ Re.run r2 t g k = Some x.
Proof.
  intros Hfree H. cbn [Re.run] in H.
  now apply (run_group_free r1 Hfree) in H.
Qed.

Lemma take_all_but (a b : string) :
  Py.take (length (a ++ b) - length b) (a ++ b) = a.
Proof. rewrite length_append, Nat.add_sub. apply take_append. Qed.

Lemma group_peel (n : nat) (cs : Re.charset) (r2 : Re.regex) (s : string)
    (g : Re.groups) (k : string -> Re.groups -> option R) (x : R) :
  Re.run (Re.Seq (Re.Group n (Re.Plus cs)) r2) s g k = Some x ->
  exists w t,
    s = w ++ t /\ w <> "" /\ all_in cs w = true /\
    Re.run r2 t ((n, w) :: g) k = Some x.
Proof.
  intros H.
  change (Re.run (Re.Plus cs) s g
            (fun t g' =>
               Re.run r2 t ((n, Py.take (length s - length t) s) :: g') k) =
          Some x) in H.
  apply plus_sound in H as (w & t & -> & Hw & Hall & H).
  rewrite take_all_but in H. now exists w, t.
Qed.

End Peeling.

Section MatchShapes.

Lemma port_match_shape (kw t : string) (m : Re.Match) :
  Re.match_here (port_pattern kw) t = Some m ->
  exists w n rest,
    t = w ++ n ++ rest /\ n <> "" /\ all_in Re.is_word n = true /\
    starts_outside Re.is_word rest /\ Re.group_text m 1 = n.
Proof.
  unfold Re.match_here, port_pattern. intros H.
  apply seq_peel in H as (w1 & t1 & -> & H); [|reflexivity].
  apply seq_peel in H as (w2 & t2 & -> & H); [|reflexivity].
  apply seq_peel in H as (w3 & t3 & -> & H); [|reflexivity].
  apply seq_peel in H as (w4 & t4 & -> & H); [|reflexivity].
  apply last_group_captures in H as (n & rest & -> & Hn & Hall & Hrest & Hcap).
  exists (w1 ++ w2 ++ w3 ++ w4), n, rest.
  repeat split; try assumption.
  - now rewrite !append_assoc.
  - unfold Re.group_text, Re.group. now rewrite Hcap.
Qed.

Lemma parameter_match_shape (t : string) (m : Re.Match) :
  Re.match_here parameter_pattern t = Some m ->
  exists w n gap v rest,
    t = w ++ n ++ gap ++ v ++ rest /\
    n <> "" /\ all_in Re.is_word n = true /\
    v <> "" /\ all_in value_char v = true /\ starts_outside value_char rest /\
    Re.group_text m 1 = n /\ Re.group_text m 2 = v.
Proof.
  unfold Re.match_here, parameter_pattern. intros H.
  apply seq_peel in H as (w1 & t1 & -> & H); [|reflexivity].
  apply seq_peel in H as (w2 & t2 & -> & H); [|reflexivity].
  apply group_peel in H as (n & t3 & -> & Hn & Hnall & H).
  apply seq_peel in H as (w4 & t4 & -> & H); [|reflexivity].
  apply seq_peel in H as (w5 & t5 & -> & H); [|reflexivity].
  apply seq_peel in H as (w6 & t6 & -> & H); [|reflexivity].
  apply last_group_captures in H as (v & rest & -> & Hv & Hvall & Hrest & Hcap).
  exists (w1 ++ w2), n, (w4 ++ w5 ++ w6), v, rest.
  repeat split; try assumption.
  - now rewrite !append_assoc.
  - unfold Re.group_text, Re.group. now rewrite Hcap.
  - unfold Re.group_text, Re.group. now rewrite Hcap.
Qed.

End MatchShapes.

(** X2.  Whatever the text, every input and output name that extraction
    reports is a whole identifier of the text: a run of word characters
    that is not empty and is not followed by a word character.  Every
    parameter it reports has such a run as its name, and as its value a
    text that is not empty, holds neither a comma nor a closing
    parenthesis, and reaches in the text the next comma, the next
    closing parenthesis or the end, across blanks and line ends. *)
Theorem extracted_names_and_values_are_well_formed :
  forall code : string,
    Forall (reported_name code) (inputs (_extract_ports code)) /\
    Forall (reported_name code) (outputs (_extract_ports code)) /\
    Forall (reported_parameter code) (parameters (_extract_ports code)).
Proof.
  intros code.
  assert (Hport : forall kw,
             Forall (reported_name code) (Re.findall1 (port_pattern kw) code)).
  { intros kw. apply Forall_forall. intros n Hin. unfold Re.findall1 in Hin.
    apply in_map_iff in Hin as (m & <- & Hin).
    apply scan_in in Hin as (p & t & -> & Hm).
    apply port_match_shape in Hm as (w & n & rest & -> & Hn & Hall & Hrest & ->).
    repeat split; try assumption.
    exists (p ++ w), rest. now rewrite !append_assoc. }
  split; [apply Hport|]. split; [apply Hport|].
  apply Forall_forall. intros q Hin. cbn [_extract_ports parameters] in Hin.
  unfold Re.findall2 in Hin. apply in_map_iff in Hin as (m & <- & Hin).
  apply scan_in in Hin as (p & t & -> & Hm).
  apply parameter_match_shape in Hm
    as (w & n & gap & v & rest & -> & Hn & Hnall & Hv & Hvall & Hrest & -> & ->).
  unfold reported_parameter, reported_value. cbn [fst snd].
  repeat split; try assumption.
  - exists (p ++ w), (gap ++ v ++ rest). now rewrite !append_assoc.
  - exists (p ++ w ++ n ++ gap), rest. now rewrite !append_assoc.
Qed.

(** ** A plain declaration is found *)

Section PlainDeclaration.

Lemma all_in_append_word (a b : string) :
  all_in Re.is_word (a ++ b) = all_in Re.is_word a && all_in Re.is_word b.
Proof.
  induction a as [|c a IH]; [reflexivity|]. cbn [append all_in].
  now rewrite IH, andb_assoc.
Qed.

Lemma prefix_of_run (cs : Re.charset) (lit s : string) :
  all_in cs lit = true -> prefix lit s = true ->
  prefix lit (take_while cs s) = true.
Proof.
  revert s; induction lit as [|a lit IH]; intros s Hall Hp.
  - now destruct (take_while cs s).
  - cbn [all_in] in Hall. apply andb_prop in Hall as [Ha Hall].
    destruct s as [|b s]; [discriminate|]. cbn in Hp.
    destruct (ascii_dec a b) as [<-|]; [|discriminate].
    cbn [take_while]. rewrite Ha. cbn.
    destruct (ascii_dec a a); [now apply IH | congruence].
Qed.

(** At an identifier other than [lit], the alternative [lit\s+] of the
    storage class does not match. *)
Lemma storage_word_fails {R : Type} (lit n rest : string) (g : Re.groups)
    (k : string -> Re.groups -> option R) :
  all_in Re.is_word lit = true ->
  all_in Re.is_word n = true -> starts_outside Re.is_word rest ->
  n <> lit ->
  Re.run (Re.Seq (Re.Lit lit) (Re.Plus Re.is_space)) (n ++ rest) g k = None.
Proof.
  intros Hlit Hn Hrest Hne. cbn [Re.run].
  destruct (prefix lit (n ++ rest)) eqn:Hp; [|reflexivity].
  pose proof (prefix_of_run Re.is_word lit _ Hlit Hp) as Hpn.
  destruct (while_append Re.is_word n rest Hn Hrest) as [Htake _].
  rewrite Htake in Hpn. apply prefix_iff in Hpn as [n' ->].
  rewrite append_assoc, drop_append.
  destruct n' as [|c n']; [now rewrite append_nil_r in Hne|].
  cbn [append]. rewrite all_in_append_word in Hn.
  apply andb_prop in Hn as [_ Hn]. cbn [all_in] in Hn.
  apply andb_prop in Hn as [Hc _]. now rewrite (word_not_space c Hc).
Qed.

Lemma run_seq {R : Type} (a b : Re.regex) (s : string) (g : Re.groups)
    (k : string -> Re.groups -> option R) :
  Re.run (Re.Seq a b) s g k = Re.run a s g (fun t g' => Re.run b t g' k).
Proof. reflexivity. Qed.

Lemma run_opt_none {R : Type} (a : Re.regex) (s : string) (g : Re.groups)
    (k : string -> Re.groups -> option R) :
  Re.run a s g k = None -> Re.run (Re.Opt a) s g k = k s g.
Proof. intros H. cbn [Re.run]. now rewrite H. Qed.

Lemma run_alt_none {R : Type} (a b : Re.regex) (s : string) (g : Re.groups)
    (k : string -> Re.groups -> option R) :
  Re.run a s g k = None -> Re.run b s g k = None ->
  Re.run (Re.Alt a b) s g k = None.
Proof. intros Ha Hb. cbn [Re.run]. now rewrite Ha, Hb. Qed.

(** The last group on a text that begins with a whole run of [cs]. *)
Lemma last_group_runs (n : nat) (cs : Re.charset) (s0 v t : string)
    (g : Re.groups) :
  v <> "" -> all_in cs v = true -> starts_outside cs t ->
  Re.run (Re.Group n (Re.Plus cs)) (v ++ t) g
    (fun u g' =>
       Some {| Re.span := length s0 - length u; Re.captured := g' |}) =
  Some {| Re.span := length s0 - length t; Re.captured := (n, v) :: g |}.
Proof.
  intros Hv Hall Ht. destruct v as [|d v]; [congruence|].
  cbn [all_in] in Hall. apply andb_prop in Hall as [Hd Hall].
  destruct (while_append cs v t Hall Ht) as [Htake Hdrop].
  cbn [Re.run append]. rewrite Hd. rewrite star_accepting by discriminate.
  rewrite Hdrop.
  change (String d (v ++ t)) with (String d v ++ t).
  now rewrite take_all_but.
Qed.

Lemma port_tail_at_space {R : Type} (c : ascii) (t : string) (g : Re.groups)
    (k : string -> Re.groups -> option R) :
  Re.is_space c = true -> Re.run port_tail (String c t) g k = None.
Proof.
  intros Hc.
  destruct c as [[] [] [] [] [] [] [] []];
    try (vm_compute in Hc; discriminate Hc); reflexivity.
Qed.

Lemma bracket_fails {R : Type} (r : Re.regex) (d : ascii) (t : string)
    (g : Re.groups) (k : string -> Re.groups -> option R) :
  Re.is_word d = true ->
  Re.run (Re.Seq (Re.Lit "[") r) (String d t) g k = None.
Proof.
  intros Hd. cbn [Re.run prefix].
  destruct (ascii_dec "[" d) as [<-|]; [discriminate Hd | reflexivity].
Qed.

Lemma port_tail_at_name (s0 n rest : string) :
  n <> "" -> all_in Re.is_word n = true -> starts_outside Re.is_word rest ->
  n <> "wire" -> n <> "reg" ->
  Re.run port_tail (n ++ rest) []
    (fun u g' =>
       Some {| Re.span := length s0 - length u; Re.captured := g' |}) =
  Some {| Re.span := length s0 - length rest; Re.captured := [(1, n)] |}.
Proof.
  intros Hn Hall Hrest Hwire Hreg. unfold port_tail, storage_class, bit_range.
  rewrite run_seq, run_opt_none.
  - rewrite run_seq, run_opt_none; [now apply last_group_runs|].
    destruct n as [|d n]; [congruence|]. cbn [all_in] in Hall.
    apply andb_prop in Hall as [Hd _]. now apply bracket_fails.
  - apply run_alt_none; now apply storage_word_fails.
Qed.

Lemma run_lit_append {R : Type} (lit t : string) (g : Re.groups)
    (k : string -> Re.groups -> option R) :
  Re.run (Re.Lit lit) (lit ++ t) g k = k t g.
Proof.
  cbn [Re.run].
  assert (H : prefix lit (lit ++ t) = true) by (apply prefix_iff; now exists t).
  now rewrite H, drop_append.
Qed.

(** The port pattern at a plain declaration: keyword, white space,
    identifier. *)
Lemma port_match_plain (kw ws n rest : string) :
  ws <> "" -> all_in Re.is_space ws = true ->
  n <> "" -> all_in Re.is_word n = true -> starts_outside Re.is_word rest ->
  n <> "wire" -> n <> "reg" ->
  exists m,
    Re.match_here (port_pattern kw) (kw ++ ws ++ n ++ rest) = Some m /\
    Re.group_text m 1 = n.
Proof.
  intros Hws Hsp Hn Hwd Hrest Hwire Hreg.
  unfold Re.match_here, port_pattern.
  change (Re.Seq storage_class
            (Re.Seq bit_range (Re.Group 1 (Re.Plus Re.is_word))))
    with port_tail.
  rewrite run_seq, run_lit_append, run_seq.
  destruct ws as [|c ws]; [congruence|]. cbn [all_in] in Hsp.
  apply andb_prop in Hsp as [Hc Hsp]. cbn [Re.run append]. rewrite Hc.
  rewrite star_refusing by (intros c' t Hc'; now apply port_tail_at_space).
  assert (Hout : starts_outside Re.is_space (n ++ rest)).
  { destruct n as [|d n]; [congruence|]. cbn [all_in] in Hwd.
    apply andb_prop in Hwd as [Hd _]. cbn. now apply word_not_space. }
  destruct (while_append Re.is_space ws (n ++ rest) Hsp Hout) as [_ ->].
  rewrite port_tail_at_name by assumption.
  eexists. split; [reflexivity|]. reflexivity.
Qed.

Lemma scan_before_keyword (kw : string) (r : Re.regex) (pre t : string) :
  first_occurrence kw (pre ++ t) pre ->
  Re.scan (Re.Seq (Re.Lit kw) r) (pre ++ t) 0 =
  Re.scan (Re.Seq (Re.Lit kw) r) t 0.
Proof.
  intros [_ Hmin].
  assert (H : forall a b, pre = a ++ b ->
                Re.scan (Re.Seq (Re.Lit kw) r) (b ++ t) 0 =
                Re.scan (Re.Seq (Re.Lit kw) r) t 0);
    [|now apply (H "" pre)].
  intros a b; revert a; induction b as [|c b IH]; intros a Hpre;
    [reflexivity|].
  cbn [append Re.scan]. rewrite match_here_keyword.
  - apply (IH (a ++ String c "")). rewrite Hpre, append_assoc. reflexivity.
  - destruct (prefix kw (String c (b ++ t))) eqn:Hp; [|reflexivity].
    apply prefix_iff in Hp as [r' Hr'].
    assert (Hocc : occurs_at kw (pre ++ t) a).
    { exists r'. rewrite Hpre, append_assoc. cbn [append]. now rewrite Hr'. }
    apply Hmin in Hocc. rewrite Hpre, length_append in Hocc. cbn in Hocc. lia.
Qed.

Lemma plain_declaration_first (kw pre ws n rest : string) :
  kw <> "" ->
  first_occurrence kw (pre ++ kw ++ ws ++ n ++ rest) pre ->
  ws <> "" -> all_in Re.is_space ws = true ->
  n <> "" -> all_in Re.is_word n = true -> starts_outside Re.is_word rest ->
  n <> "wire" -> n <> "reg" ->
  hd_error (Re.findall1 (port_pattern kw) (pre ++ kw ++ ws ++ n ++ rest)) =
  Some n.
Proof.
  intros Hkw Hfirst Hws Hsp Hn Hwd Hrest Hwire Hreg.
  destruct (port_match_plain kw ws n rest Hws Hsp Hn Hwd Hrest Hwire Hreg)
    as (m & Hm & Hg).
  unfold Re.findall1, port_pattern in *. rewrite scan_before_keyword by exact Hfirst.
  destruct kw as [|c kw]; [congruence|]. cbn [append Re.scan] in Hm |- *.
  rewrite Hm. cbn [map hd_error]. now rewrite Hg.
Qed.

End PlainDeclaration.

Lemma first_occurrence_by_find (sub s p : string) :
  occurs_at sub s p -> Py.find s sub = Z.of_nat (length p) ->
  first_occurrence sub s p.
Proof.
  intros Hocc Hfind. split; [exact Hocc|]. intros q Hq.
  destruct (find_present s sub) as (p0 & [_ Hmin] & Hp0); [now exists q|].
  apply Hmin in Hq. lia.
Qed.

(** X3.  A plain declaration is found.  When the first [input] of the text
    is followed by white space and an identifier other than [wire] and
    [reg], that identifier is the first input reported; and the same
    holds for [output] and the outputs. *)
Theorem plain_declaration_is_reported_first :
  forall (pre ws n rest : string),
    ws <> "" -> all_in Re.is_space ws = true ->
    n <> "" -> all_in Re.is_word n = true -> starts_outside Re.is_word rest ->
    n <> "wire" -> n <> "reg" ->
    (first_occurrence "input" (pre ++ "input" ++ ws ++ n ++ rest) pre ->
     hd_error (inputs (_extract_ports (pre ++ "input" ++ ws ++ n ++ rest))) =
     Some n) /\
    (first_occurrence "output" (pre ++ "output" ++ ws ++ n ++ rest) pre ->
     hd_error (outputs (_extract_ports (pre ++ "output" ++ ws ++ n ++ rest))) =
     Some n).
Proof.
  intros pre ws n rest Hws Hsp Hn Hwd Hrest Hwire Hreg. split; intros Hfirst.
  - now apply (plain_declaration_first "input").
  - now apply (plain_declaration_first "output").
Qed.

Lemma plain_declaration_is_reported_first_witness :
  hd_error
    (inputs (_extract_ports ("module m(" ++ "input" ++ " " ++ "clk" ++ ");")))
  = Some "clk".
Proof.
  apply (proj1 (plain_declaration_is_reported_first
                  "module m(" " " "clk" ");"
                  ltac:(discriminate) eq_refl ltac:(discriminate) eq_refl
                  eq_refl ltac:(discriminate) ltac:(discriminate))).
  apply first_occurrence_by_find; [now exists (" " ++ "clk" ++ ");")|].
  reflexivity.
Defined.

(** ** Settings taken from the environment *)

Section Environment.

Lemma length_drop (n : nat) (s : string) :
  length (Py.drop n s) = length s - n.
Proof.
  revert s; induction n as [|n IH]; intros [|c s]; cbn; try reflexivity.
  apply IH.
Qed.

Lemma endswith_append (a p : string) : Py.endswith (a ++ p) p = true.
Proof.
  unfold Py.endswith. rewrite length_append.
  replace (length a + length p - length p) with (length a) by lia.
  rewrite drop_append, String.eqb_refl.
  apply andb_true_intro. split; [apply Nat.leb_le; lia | reflexivity].
Qed.

Lemma append_last (x r a : string) (c : ascii) :
  r <> "" -> x ++ r = a ++ String c "" ->
  exists name, r = name ++ String c "".
Proof.
  intros Hr. revert a; induction x as [|y x IH]; intros a H.
  - now exists a.
  - destruct a as [|z a].
    + cbn in H. injection H as _ H. destruct x; cbn in H; [congruence | discriminate H].
    + cbn in H. injection H as _ H. now apply (IH a).
Qed.

Lemma wrapped_iff (v : string) :
  Py.startswith v "${" && Py.endswith v "}" = true <->
  exists name, v = "${" ++ name ++ "}".
Proof.
  split.
  - intros H. apply andb_prop in H as [Hs He].
    apply prefix_iff in Hs as [r ->].
    apply endswith_split in He as [a Ha].
    destruct r as [|c r].
    + destruct a as [|x [|y [|z a]]]; discriminate Ha.
    + apply append_last in Ha as [name ->]; [|discriminate]. now exists name.
  - intros [name ->]. apply andb_true_intro. split.
    + apply prefix_iff. now eexists.
    + change ("${" ++ name ++ "}") with (("${" ++ name) ++ "}").
      apply endswith_append.
Qed.

Lemma slice_wrapped (name : string) :
  slice ("${" ++ name ++ "}") 2 (-1) = name.
Proof.
  unfold slice, Py.clamp. cbn [append length Z.ltb Z.compare].
  rewrite length_append. cbn [length].
  replace (Z.to_nat (Z.max 0 (Z.of_nat (S (S (length name + 1))) + -1)))
    with (S (S (length name))) by lia.
  replace (Nat.min (Z.to_nat 2) (S (S (length name + 1)))) with 2 by lia.
  replace (S (S (length name)) - 2) with (length name) by lia.
  cbn [Py.drop]. apply take_append.
Qed.

End Environment.

Section Resolution.

Lemma resolve_stands_for (env : Environ) (x y error : string) :
  stands_for env x y -> resolve x error env = (Return y, env).
Proof.
  unfold resolve. intros [(name & -> & Hname & Hy)|[Hform ->]].
  - rewrite (proj2 (wrapped_iff _)) by now exists name.
    rewrite slice_wrapped. unfold bind, getenv. rewrite Hname.
    destruct (String.eqb_spec y ""); [congruence | reflexivity].
  - destruct (Py.startswith x "${" && Py.endswith x "}") eqn:E; [|reflexivity].
    apply wrapped_iff in E as [name ->]. now destruct (Hform name).
Qed.

Lemma resolve_unresolved (env : Environ) (x error : string) :
  unresolved env x -> resolve x error env = (Raise error, env).
Proof.
  unfold resolve. intros (name & -> & Hname).
  rewrite (proj2 (wrapped_iff _)) by now exists name.
  rewrite slice_wrapped. unfold bind, getenv.
  now destruct Hname as [-> | ->].
Qed.

Lemma resolution_cases (env : Environ) (x : string) :
  unresolved env x \/ exists y, stands_for env x y.
Proof.
  destruct (Py.startswith x "${" && Py.endswith x "}") eqn:E.
  - apply wrapped_iff in E as [name ->].
    destruct (env name) as [y|] eqn:Hname.
    + destruct (String.eqb_spec y "") as [->|Hy].
      * left. exists name. now split; [|right].
      * right. exists y. left. now exists name.
    + left. exists name. now split; [|left].
  - right. exists x. right. split; [|reflexivity].
    intros name ->. rewrite (proj2 (wrapped_iff _)) in E by now exists name.
    discriminate E.
Qed.

End Resolution.

(** X13.  The client set-up reads a setting from the environment exactly
    when it is written [${NAME}], and reads the variable [NAME]; a
    setting of any other form is used as written.  A key whose variable
    is unset or empty stops the set-up with the error of the key, before
    the endpoint is looked at; an endpoint whose variable is unset or
    empty stops it with the error of the endpoint; otherwise the client
    is built with the resolved key and endpoint and the configured
    version.  One of the three cases always holds, and the environment
    is never changed. *)
Theorem initialize_openai_client_resolves_settings :
  forall (config : arguments) (env : Environ) (k e v : string),
    get config "api_key" = Some k ->
    get config "endpoint" = Some e ->
    get config "api_version" = Some v ->
    (unresolved env k ->
     _initialize_openai_client config env =
     (Raise "Azure OpenAI API key not configured", env)) /\
    (forall ky,
        stands_for env k ky -> unresolved env e ->
        _initialize_openai_client config env =
        (Raise "Azure OpenAI endpoint not configured", env)) /\
    (forall ky ey,
        stands_for env k ky -> stands_for env e ey ->
        _initialize_openai_client config env =
        (Return {| api_key := ky; azure_endpoint := ey; api_version := v |},
         env)) /\
    (unresolved env k \/
     (exists ky, stands_for env k ky /\ unresolved env e) \/
     (exists ky ey, stands_for env k ky /\ stands_for env e ey)).
Proof.
  intros config env k e v Hk He Hv.
  assert (Hstart : _initialize_openai_client config env =
                   (k' <- resolve k "Azure OpenAI API key not configured" ;;
                    e' <- resolve e "Azure OpenAI endpoint not configured" ;;
                    ret {| api_key := k'; azure_endpoint := e';
                           api_version := v |}) env).
  { unfold _initialize_openai_client, subscript. rewrite Hk, He, Hv.
    reflexivity. }
  rewrite Hstart. unfold bind. repeat split.
  - intros Hun. now rewrite resolve_unresolved.
  - intros ky Hky Hun.
    now rewrite (resolve_stands_for env k ky), resolve_unresolved.
  - intros ky ey Hky Hey.
    now rewrite (resolve_stands_for env k ky), (resolve_stands_for env e ey).
  - destruct (resolution_cases env k) as [Hun|[ky Hky]]; [now left|].
    right. destruct (resolution_cases env e) as [Hun|[ey Hey]].
    + left. now exists ky.
    + right. now exists ky, ey.
Qed.

Lemma initialize_openai_client_resolves_settings_witness :
  _initialize_openai_client
    [("api_key", "${AZURE_KEY}"); ("endpoint", "https://example.test");
     ("api_version", "2024-02-01")]
    (fun name => if name =? "AZURE_KEY" then Some "secret" else None) =
  (Return {| api_key := "secret";
             azure_endpoint := "https://example.test";
             api_version := "2024-02-01" |},
   fun name => if name =? "AZURE_KEY" then Some "secret" else None).
Proof.
  apply (proj1 (proj2 (proj2
           (initialize_openai_client_resolves_settings
              [("api_key", "${AZURE_KEY}"); ("endpoint", "https://example.test");
               ("api_version", "2024-02-01")]
              (fun name => if name =? "AZURE_KEY" then Some "secret" else None)
              "${AZURE_KEY}" "https://example.test" "2024-02-01"
              eq_refl eq_refl eq_refl)))).
  - left. exists "AZURE_KEY". repeat split. discriminate.
  - right. split; [|reflexivity]. intros name H. discriminate H.
Defined.

(** ** What a computation keeps *)

Section Keeps.

Context {S : Type} (P : S -> Prop).

Lemma keeps_ret {A : Type} (a : A) : keeps P (ret a).
Proof. intros st H. exact H. Qed.

Lemma keeps_raise {A : Type} (e : string) : keeps P (@raise S A e).
Proof. intros st H. exact H. Qed.

Lemma keeps_bind {A B : Type} (c : M S A) (f : A -> M S B) :
  keeps P c -> (forall a, keeps P (f a)) -> keeps P (bind c f).
Proof.
  intros Hc Hf st H. unfold bind. specialize (Hc st H).
  destruct (c st) as [[a|e] st']; cbn [snd] in *; [now apply Hf | exact Hc].
Qed.

Lemma keeps_try_except {A : Type} (c : M S A) (h : string -> M S A) :
  keeps P c -> (forall e, keeps P (h e)) -> keeps P (try_except c h).
Proof.
  intros Hc Hh st H. unfold try_except. specialize (Hc st H).
  destruct (c st) as [[a|e] st']; cbn [snd] in *; [exact Hc | now apply Hh].
Qed.

Lemma keeps_subscript (args : arguments) (k : string) :
  keeps P (@subscript S args k).
Proof. unfold subscript. destruct (get args k); intros st H; exact H. Qed.

Lemma keeps_for_each {A : Type} (xs : list A) (body : A -> M S unit) :
  (forall x, keeps P (body x)) -> keeps P (for_each xs body).
Proof.
  intros Hb. induction xs as [|x xs IH]; [apply keeps_ret|].
  cbn [for_each]. apply keeps_bind; [apply Hb | intros _; exact IH].
Qed.

End Keeps.

Section KeepsInCtx.

Variable P : Ctx -> Prop.

Lemma keeps_get_self : keeps P get_self.
Proof. intros st H. exact H. Qed.

Lemma keeps_get_env : keeps P get_env.
Proof. intros st H. exact H. Qed.

Lemma keeps_reply_text (t : string) : keeps P (reply_text t).
Proof. intros st H. exact H. Qed.

Lemma keeps_read_file (path : string) : keeps P (read_file path).
Proof.
  intros st H. unfold read_file.
  destruct (journal_lookup _ _); [exact H|].
  destruct (file_text _ _); exact H.
Qed.

(** The branches of the dispatcher keep what the methods they call
    keep. *)
Lemma keeps_call_load_verilog_files (args : arguments) :
  (forall d, keeps P (load_verilog_files d)) ->
  keeps P (call_load_verilog_files args).
Proof.
  intros Hload. unfold call_load_verilog_files.
  apply keeps_bind; [apply keeps_subscript | intros d].
  apply keeps_bind; [apply keeps_get_env | intros w].
  destruct (negb _); [apply keeps_reply_text|].
  apply keeps_bind; [apply Hload | intros _].
  apply keeps_bind; [apply keeps_get_self | intros a; apply keeps_reply_text].
Qed.

Lemma keeps_call_get_loaded_modules : keeps P call_get_loaded_modules.
Proof.
  unfold call_get_loaded_modules.
  apply keeps_bind; [apply keeps_get_self | intros a].
  destruct (modules a); apply keeps_reply_text.
Qed.

Lemma keeps_call_parse_verilog_file (args : arguments) :
  (forall path, keeps P (_parse_verilog_file path)) ->
  keeps P (call_parse_verilog_file args).
Proof.
  intros Hparse. unfold call_parse_verilog_file.
  apply keeps_bind; [apply keeps_subscript | intros path].
  apply keeps_bind; [apply keeps_get_env | intros w].
  destruct (negb _); [apply keeps_reply_text|].
  apply keeps_bind; [apply Hparse | intros _].
  apply keeps_bind; [apply keeps_get_self | intros a].
  destruct (last_module _); apply keeps_reply_text.
Qed.

Lemma keeps_call_extract_ports (args : arguments) :
  keeps P (call_extract_ports args).
Proof.
  unfold call_extract_ports.
  apply keeps_bind; [apply keeps_subscript | intros c; apply keeps_reply_text].
Qed.

Lemma keeps_call_get_module_details (args : arguments) :
  keeps P (call_get_module_details args).
Proof.
  unfold call_get_module_details, module_not_found.
  apply keeps_bind; [apply keeps_subscript | intros n].
  apply keeps_bind; [apply keeps_get_self | intros a].
  destruct (find_module n (modules a)); apply keeps_reply_text.
Qed.

Lemma keeps_call_analyze_single_module (args : arguments) :
  (forall m, keeps P (_analyze_single_module m)) ->
  (forall n text st,
      P st ->
      P (snd (set_modules (assign_analysis n text (modules (self st))) st))) ->
  keeps P (call_analyze_single_module args).
Proof.
  intros Hone Hassign. unfold call_analyze_single_module, module_not_found.
  apply keeps_bind; [apply keeps_subscript | intros n].
  apply keeps_bind; [apply keeps_get_self | intros a].
  destruct (find_module n (modules a)) as [m|]; [|apply keeps_reply_text].
  apply keeps_bind; [apply Hone | intros text].
  intros st H. unfold bind, get_self. cbn [snd reply_text ret].
  now apply Hassign.
Qed.

Lemma keeps_call_analyze_all_modules :
  keeps P analyze_modules -> keeps P call_analyze_all_modules.
Proof.
  intros Hall. unfold call_analyze_all_modules.
  apply keeps_bind; [apply keeps_get_self | intros a].
  destruct (modules a); [apply keeps_reply_text|].
  apply keeps_bind; [exact Hall | intros _].
  apply keeps_bind; [apply keeps_get_self | intros a'; apply keeps_reply_text].
Qed.

Lemma keeps_call_generate_latex_document (args : arguments) :
  (forall t o, keeps P (generate_latex_document t o)) ->
  keeps P (call_generate_latex_document args).
Proof.
  intros Hgen. unfold call_generate_latex_document.
  apply keeps_bind; [apply keeps_get_self | intros a].
  destruct (modules a); [apply keeps_reply_text|].
  apply keeps_bind; [apply Hgen | intros _].
  apply keeps_bind; [apply keeps_get_self | intros a'; apply keeps_reply_text].
Qed.

Lemma keeps_call_run_complete_analysis (args : arguments) :
  (forall d t o, keeps P (run_complete_analysis d t o)) ->
  keeps P (call_run_complete_analysis args).
Proof.
  intros Hrun. unfold call_run_complete_analysis.
  apply keeps_bind; [apply keeps_subscript | intros d].
  apply keeps_bind; [apply Hrun | intros _].
  apply keeps_bind; [apply keeps_get_self | intros a; apply keeps_reply_text].
Qed.

Lemma keeps_run_complete_analysis (d : option string) (t : string)
    (o : option string) :
  keeps P (load_verilog_files d) -> keeps P analyze_modules ->
  keeps P (generate_latex_document t o) ->
  keeps P (run_complete_analysis d t o).
Proof.
  intros Hload Hall Hgen. unfold run_complete_analysis.
  apply keeps_bind; [exact Hload | intros _].
  apply keeps_bind; [apply keeps_get_self | intros a].
  destruct (modules a); [apply keeps_ret|].
  apply keeps_bind; [exact Hall | intros _; exact Hgen].
Qed.

End KeepsInCtx.

(** ** Every record stays well formed *)

Section WellFormed.

Lemma occurs_cons_inv (c : ascii) (s : string) :
  occurs "/" (String c s) -> c = "/"%char \/ occurs "/" s.
Proof.
  intros [[|d p] H].
  - left. destruct H as [r Hr]. cbn in Hr. congruence.
  - right. pose proof (occurs_at_head _ _ _ _ _ H) as <-.
    apply occurs_at_cons in H. now exists p.
Qed.

Lemma basename_no_slash (p : string) : ~ occurs "/" (Str.basename p).
Proof.
  induction p as [|c p IH]; cbn [Str.basename].
  - intros [[|d q] [r Hr]]; discriminate Hr.
  - destruct (Py.contains p "/") eqn:Hc; [exact IH|].
    apply contains_false in Hc.
    destruct (Ascii.eqb_spec c "/") as [->|Hne]; [exact Hc|].
    intros H. apply occurs_cons_inv in H as [H|H]; [congruence | now apply Hc].
Qed.

Lemma first_declared_facts (text n : string) :
  first_declared text n ->
  n <> "" /\ all_in Re.is_word n = true /\ occurs "module" text.
Proof.
  intros (pre & (ws & rest & -> & _ & _ & Hn & Hall & _) & _).
  repeat split; try assumption. now exists pre, (ws ++ n ++ rest).
Qed.

Lemma record_of_well_formed (file : string * string) :
  Forall well_formed (record_of file).
Proof.
  unfold record_of. pose proof (search_module_spec (snd file)) as Hs.
  destruct (Re.search module_pattern (snd file)) as [m|]; [|constructor].
  constructor; [|constructor].
  destruct (first_declared_facts _ _ Hs) as (Hn & Hall & Hocc).
  unfold well_formed. cbn [name code filename ports description].
  repeat split; try assumption. apply basename_no_slash.
Qed.

Lemma records_from_well_formed (w : World) (files : list string) :
  Forall well_formed (records_from w files).
Proof.
  unfold records_from. induction (readable_files w files) as [|f fs IH];
    [constructor|].
  cbn [flat_map]. apply Forall_app. split; [apply record_of_well_formed | exact IH].
Qed.

Lemma set_analysis_well_formed (m : VerilogModule) (text : string) :
  well_formed m -> well_formed (set_analysis m text).
Proof. intros H. exact H. Qed.

Lemma assign_analysis_well_formed (n text : string) (ms : list VerilogModule) :
  Forall well_formed ms -> Forall well_formed (assign_analysis n text ms).
Proof.
  induction 1 as [|m ms Hm Hms IH]; [constructor|]. cbn [assign_analysis].
  destruct (name m =? n); constructor; assumption.
Qed.

Lemma analysed_well_formed (answers : nat -> reply) (ms : list VerilogModule) :
  forall n, Forall well_formed ms -> Forall well_formed (analysed answers n ms).
Proof.
  induction ms as [|m ms IH]; intros n H; [constructor|].
  inversion H; subst. cbn [analysed]. constructor; [assumption | now apply IH].
Qed.

Lemma keeps_ok_load (d : option string) :
  keeps collection_ok (load_verilog_files d).
Proof.
  intros st H. rewrite load_verilog_files_closed. unfold collection_ok.
  cbn [snd add_modules self modules]. apply Forall_app. split; [exact H | apply records_from_well_formed].
Qed.

Lemma keeps_ok_parse (path : string) :
  keeps collection_ok (_parse_verilog_file path).
Proof.
  intros st H. rewrite parse_verilog_file_closed. unfold collection_ok.
  cbn [snd add_modules self modules]. apply Forall_app. split; [exact H | apply records_from_well_formed].
Qed.

Lemma keeps_ok_analyze_single (m : VerilogModule) :
  keeps collection_ok (_analyze_single_module m).
Proof. intros st H. rewrite analyze_single_module_spec. exact H. Qed.

Lemma keeps_ok_analyze_modules : keeps collection_ok analyze_modules.
Proof.
  intros st H. rewrite analyze_modules_spec. unfold collection_ok.
  cbn [snd after_requests self modules]. now apply analysed_well_formed.
Qed.

(** The document generator leaves the analyzer as it was. *)
Lemma generate_latex_document_self (t : string) (o : option string) (st : Ctx) :
  self (snd (generate_latex_document t o st)) = self st.
Proof.
  unfold generate_latex_document, bind, get_self.
  destruct (read_file t st) as [[text|e] st1] eqn:Hr.
  - assert (st1 = st) as ->.
    { unfold read_file in Hr. destruct (journal_lookup _ _); [congruence|].
      destruct (file_text _ _); congruence. }
    rewrite generate_complete_document_spec. unfold write_file.
    cbn [env after_requests set_calls write_error self].
    destruct (write_error _ _); cbn; now destruct st as [w [cfg ms]].
  - unfold read_file in Hr. destruct (journal_lookup _ _); [congruence|].
    destruct (file_text _ _); [congruence|]. now injection Hr as _ <-.
Qed.

Lemma keeps_ok_generate (t : string) (o : option string) :
  keeps collection_ok (generate_latex_document t o).
Proof.
  intros st H. unfold collection_ok. now rewrite generate_latex_document_self.
Qed.

Lemma keeps_ok_call_tool (name : string) (args : arguments) :
  keeps collection_ok (call_tool name args).
Proof.
  unfold call_tool.
  repeat match goal with
         | |- keeps _ (if ?b then _ else _) => destruct b
         end.
  - apply keeps_call_load_verilog_files. intros d. apply keeps_ok_load.
  - apply keeps_call_get_loaded_modules.
  - apply keeps_call_parse_verilog_file. apply keeps_ok_parse.
  - apply keeps_call_extract_ports.
  - apply keeps_call_analyze_single_module; [apply keeps_ok_analyze_single|].
    intros n text st H. unfold collection_ok. cbn.
    now apply assign_analysis_well_formed.
  - apply keeps_call_analyze_all_modules, keeps_ok_analyze_modules.
  - apply keeps_call_generate_latex_document. apply keeps_ok_generate.
  - apply keeps_call_run_complete_analysis. intros d t o.
    apply keeps_run_complete_analysis;
      [apply keeps_ok_load | apply keeps_ok_analyze_modules
       | apply keeps_ok_generate].
  - apply keeps_call_get_module_details.
  - apply keeps_reply_text.
Qed.

End WellFormed.

Section KeepsInServer.

Variable PS : Server -> Prop.
Variable PC : Ctx -> Prop.

Hypothesis PS_some :
  forall w a,
    PS {| host := w; analyzer_instance := Some a |} <->
    PC {| env := w; self := a |}.

Lemma keeps_on_instance {A : Type} (c : M Ctx A) :
  keeps PC c -> keeps PS (on_instance c).
Proof.
  intros Hc st H. unfold on_instance.
  destruct st as [w [a|]]; cbn [analyzer_instance host]; [|exact H].
  apply PS_some in H. specialize (Hc _ H).
  destruct (c _) as [r [w' a']]. cbn [snd env self] in *. now apply PS_some.
Qed.

Lemma keeps_handle_call_tool (name : string) (args : arguments) :
  (forall path, keeps PS (new_analyzer path)) ->
  keeps PC (call_tool name args) ->
  keeps PS (handle_call_tool name args).
Proof.
  intros Hnew Hcall. unfold handle_call_tool.
  apply keeps_try_except; [|intros e; apply keeps_ret].
  destruct (name =? "initialize_analyzer").
  - apply keeps_bind; [apply Hnew | intros _; apply keeps_ret].
  - apply keeps_bind; [|intros _; now apply keeps_on_instance].
    intros st H. unfold ensure_analyzer.
    destruct (analyzer_instance st); [exact H | now apply Hnew].
Qed.

End KeepsInServer.

(** X4.  In every state that the server reaches, every record of the
    collection is as the loader built it: its name is the identifier
    that its text declares first, a run of word characters that is not
    empty; its text holds the keyword [module]; its filename holds no
    slash; its ports are the extraction from its text.  No operation,
    in any order and with any arguments, breaks this: the operations
    that change a record change its analysis only. *)
Theorem every_reachable_record_is_well_formed :
  forall (requests : list (string * arguments)) (st : Server),
    server_ok st -> server_ok (serve requests st).
Proof.
  intros requests.
  induction requests as [|[name args] requests IH]; intros st H; [exact H|].
  cbn [serve]. apply IH.
  apply (keeps_handle_call_tool server_ok collection_ok); try exact H.
  - intros w a. reflexivity.
  - intros path st' H'. unfold new_analyzer.
    destruct (construct _ _); [constructor | exact H'].
  - apply keeps_ok_call_tool.
Qed.

Lemma every_reachable_record_is_well_formed_witness :
  server_ok
    (serve [("load_verilog_files", [("input_dir", "rtl")]);
            ("analyze_all_modules", []);
            ("parse_verilog_file", [("file_path", "rtl/counter.v")])]
       {| host := sample_disk; analyzer_instance := None |}).
Proof.
  apply every_reachable_record_is_well_formed. exact I.
Defined.

(** ** Which operations touch the world *)

Section Frames.

Variable w0 : World.
Variable j0 : list (string * string).

Let same_world (st : Ctx) : Prop := env st = w0.
Let same_files (st : Ctx) : Prop := written (env st) = j0.

Lemma keeps_world_call_tool (name : string) (args : arguments) :
  ~ In name ["analyze_single_module"; "analyze_all_modules";
             "generate_latex_document"; "run_complete_analysis"] ->
  keeps same_world (call_tool name args).
Proof.
  intros Hname. unfold call_tool.
  repeat match goal with
         | |- keeps _ (if name =? ?lit then _ else _) =>
             destruct (String.eqb_spec name lit) as [->|_]
         end;
    try (exfalso; apply Hname; cbn; tauto).
  - apply keeps_call_load_verilog_files. intros d st H.
    now rewrite load_verilog_files_closed.
  - apply keeps_call_get_loaded_modules.
  - apply keeps_call_parse_verilog_file. intros path st H.
    now rewrite parse_verilog_file_closed.
  - apply keeps_call_extract_ports.
  - apply keeps_call_get_module_details.
  - apply keeps_reply_text.
Qed.

Lemma keeps_files_call_tool (name : string) (args : arguments) :
  ~ In name ["generate_latex_document"; "run_complete_analysis"] ->
  keeps same_files (call_tool name args).
Proof.
  intros Hname. unfold call_tool.
  repeat match goal with
         | |- keeps _ (if name =? ?lit then _ else _) =>
             destruct (String.eqb_spec name lit) as [->|_]
         end;
    try (exfalso; apply Hname; cbn; tauto).
  - apply keeps_call_load_verilog_files. intros d st H.
    now rewrite load_verilog_files_closed.
  - apply keeps_call_get_loaded_modules.
  - apply keeps_call_parse_verilog_file. intros path st H.
    now rewrite parse_verilog_file_closed.
  - apply keeps_call_extract_ports.
  - apply keeps_call_analyze_single_module.
    + intros m st H. now rewrite analyze_single_module_spec.
    + intros n text st H. exact H.
  - apply keeps_call_analyze_all_modules. intros st H.
    now rewrite analyze_modules_spec.
  - apply keeps_call_get_module_details.
  - apply keeps_reply_text.
Qed.

End Frames.

(** X5.  Only four operations can change the world, and only two can write
    a file.  A call of any other name, known or not, with any
    arguments, leaves the files and the count of requests to the
    external model as they were; the two analyze operations make
    requests and write nothing. *)
Theorem operations_that_leave_the_world :
  forall (name : string) (args : arguments) (st : Server),
    (~ In name ["analyze_single_module"; "analyze_all_modules";
                "generate_latex_document"; "run_complete_analysis"] ->
     host (snd (handle_call_tool name args st)) = host st) /\
    (~ In name ["generate_latex_document"; "run_complete_analysis"] ->
     written (host (snd (handle_call_tool name args st))) =
     written (host st)).
Proof.
  intros name args st. split; intros Hname.
  - apply (keeps_handle_call_tool (fun s => host s = host st)
             (fun c => env c = host st)); try reflexivity.
    + intros path s H. unfold new_analyzer. now destruct (construct _ _).
    + now apply keeps_world_call_tool.
  - apply (keeps_handle_call_tool
             (fun s => written (host s) = written (host st))
             (fun c => written (env c) = written (host st))); try reflexivity.
    + intros path s H. unfold new_analyzer. now destruct (construct _ _).
    + now apply keeps_files_call_tool.
Qed.

Lemma operations_that_leave_the_world_witness :
  host (snd (handle_call_tool "load_verilog_files" [("input_dir", "rtl")]
               {| host := sample_disk; analyzer_instance := None |})) =
  sample_disk.
Proof.
  apply (proj1 (operations_that_leave_the_world "load_verilog_files"
                  [("input_dir", "rtl")]
                  {| host := sample_disk; analyzer_instance := None |})).
  cbn. intuition discriminate.
Defined.



(** ** A failed call and the rest of the session *)

Section Session.

Lemma ensure_analyzer_idempotent (st : Server) :
  ensure_analyzer (snd (ensure_analyzer st)) =
  (fst (ensure_analyzer st), snd (ensure_analyzer st)).
Proof.
  unfold ensure_analyzer, new_analyzer.
  destruct (analyzer_instance st) as [a|] eqn:Ha; cbn [snd fst].
  - now rewrite Ha.
  - destruct (construct (host st) "config.yaml") as [cfg|e] eqn:Hc;
      cbn [snd fst analyzer_instance]; [reflexivity|]. now rewrite Ha, Hc.
Qed.

(** The state after a call does not depend, up to the lazy
    construction, on whether the construction had been done before. *)
Lemma handle_call_tool_state_after_ensure (name : string) (args : arguments)
    (st : Server) :
  snd (ensure_analyzer
         (snd (handle_call_tool name args (snd (ensure_analyzer st))))) =
  snd (ensure_analyzer (snd (handle_call_tool name args st))).
Proof.
  unfold ensure_analyzer at 2.
  destruct (analyzer_instance st) as [a|] eqn:Ha; [reflexivity|].
  unfold new_analyzer at 1.
  destruct (construct (host st) "config.yaml") as [cfg|e] eqn:Hc;
    [|reflexivity].
  cbn [snd]. unfold handle_call_tool, try_except.
  destruct (name =? "initialize_analyzer").
  - unfold bind, new_analyzer. cbn [host].
    destruct (construct (host st)
                (get_default args "config_path" "config.yaml"));
      [reflexivity|].
    cbn [snd ret]. unfold ensure_analyzer, new_analyzer.
    cbn [analyzer_instance host snd]. now rewrite Ha, Hc.
  - unfold bind, ensure_analyzer. cbn [analyzer_instance].
    rewrite Ha. unfold new_analyzer. rewrite Hc. reflexivity.
Qed.

Lemma answers_after_ensure (requests : list (string * arguments)) :
  forall st1 st2,
    snd (ensure_analyzer st1) = snd (ensure_analyzer st2) ->
    answers requests st1 = answers requests st2.
Proof.
  induction requests as [|[name args] requests IH]; intros st1 st2 H;
    [reflexivity|].
  cbn [answers]. f_equal.
  - rewrite <- (handle_call_tool_after_ensure name args st1).
    rewrite <- (handle_call_tool_after_ensure name args st2).
    now rewrite H.
  - apply IH.
    rewrite <- (handle_call_tool_state_after_ensure name args st1).
    rewrite <- (handle_call_tool_state_after_ensure name args st2).
    now rewrite H.
Qed.

End Session.

(** X15.  A failed call is not seen by the rest of the session.  After a
    call that leaves out a required argument, or that names an operation
    outside the table, the server gives to every later sequence of
    calls, one after the other, the answers it would have given without
    the failed call. *)
Theorem failed_call_is_invisible_to_the_session :
  forall (name : string) (args : arguments) (st : Server)
         (requests : list (string * arguments)),
    misses_required name args \/ ~ In name tool_names ->
    answers requests (snd (handle_call_tool name args st)) =
    answers requests st.
Proof.
  intros name args st requests Hbad.
  apply answers_after_ensure.
  assert (Hsnd : snd (handle_call_tool name args st) = snd (ensure_analyzer st)).
  { destruct Hbad as [Hmiss|Hout].
    - destruct (call_tool_missing name args Hmiss) as (Hname & k & _ & Hk).
      now apply (handle_call_tool_inert name args (Raise ("'" ++ k ++ "'"))).
    - destruct (outside_table name Hout) as [Hname Hunknown].
      apply (handle_call_tool_inert name args
               (Return [text_content ("Unknown tool: " ++ name)]));
        [exact Hname|].
      intros ctx. now rewrite Hunknown. }
  rewrite Hsnd. rewrite ensure_analyzer_idempotent. reflexivity.
Qed.

Lemma failed_call_is_invisible_to_the_session_witness :
  answers [("load_verilog_files", [("input_dir", "rtl")]);
           ("get_loaded_modules", [])]
    (snd (handle_call_tool "delete_everything" []
            {| host := sample_disk; analyzer_instance := None |})) =
  answers [("load_verilog_files", [("input_dir", "rtl")]);
           ("get_loaded_modules", [])]
    {| host := sample_disk; analyzer_instance := None |}.
Proof.
  apply failed_call_is_invisible_to_the_session.
  right. cbn. intuition discriminate.
Defined.
